(** * titanic_utils: missing-value cleaning of a pandas DataFrame

    A shallow embedding of [titanic_utils.py] (functions [clean_nan_values],
    [id_nan_columns] and [drop_cols]) together with the properties of the
    written specification that concern them.

    The three functions act on one DataFrame object which [drop_cols] mutates
    in place and on the standard output stream.  Both are kept in a [world]
    that is threaded through a state-and-exception monad. *)

From Stdlib Require Import ZArith List String Bool Lia Floats.
Import ListNotations.
Open Scope string_scope.
Open Scope Z_scope.
Open Scope list_scope.

(* ================================================================== *)
(** * Data model *)
(* ================================================================== *)

(** A cell of a DataFrame.  pandas has no separate "missing" variant: a cell
    is missing when it holds [None] or a floating-point NaN. *)
Inductive cell : Type :=
| CNone
| CFloat (f : float)
| CInt (z : Z)
| CStr (s : string).

(** [pandas.isna] on one cell. *)
Definition isna (c : cell) : bool :=
  match c with
  | CNone => true
  | CFloat f => is_nan f
  | CInt _ => false
  | CStr _ => false
  end.

(** A row: its index label and one cell per column. *)
Record row : Type := mkRow { label : Z; cells : list cell }.

(** A DataFrame: the ordered column labels and the rows. *)
Record DataFrame : Type := mkFrame { columns : list string; rows : list row }.

Definition value_at (r : row) (i : nat) : cell := nth i (cells r) CNone.

Fixpoint nodupb (l : list string) : bool :=
  match l with
  | [] => true
  | x :: xs => negb (existsb (String.eqb x) xs) && nodupb xs
  end.

(** The frames the embedding speaks about: column labels are unique and every
    row has one cell per column. *)
Definition wf_frame (df : DataFrame) : bool :=
  nodupb (columns df)
  && forallb (fun r => Nat.eqb (List.length (cells r)) (List.length (columns df))) (rows df).

(** [Index.get_loc]: the position of a label. *)
Fixpoint get_loc (names : list string) (key : string) : option nat :=
  match names with
  | [] => None
  | n :: ns => if String.eqb n key then Some 0%nat else option_map S (get_loc ns key)
  end.

(** Whether row [r] is missing in the column labelled [c]. *)
Definition isna_at (names : list string) (r : row) (c : string) : bool :=
  match get_loc names c with
  | Some i => isna (value_at r i)
  | None => false
  end.

(* ================================================================== *)
(** * Exceptions, outcomes and the monad *)
(* ================================================================== *)

Inductive exn : Type :=
| NameError (name : string)
| UnboundLocalError (name : string)
| KeyError (key : string)
| TypeError (what : string)
| OverflowError.

Inductive outcome (A : Type) : Type :=
| Ok (a : A)
| Raise (e : exn).
Arguments Ok {A} a.
Arguments Raise {A} e.

(** One field of an f-string, kept before it is turned into text: a float
    field holds the float, the digits numpy prints for it are not reproduced. *)
Inductive frag : Type :=
| Lit (s : string)
| FInt (z : Z)
| FStr (s : string)
| FFloat (x : float).

(** The DataFrame object that the caller passed in (the functions only ever
    hold this one, under the name [df]) and the lines printed so far. *)
Record world : Type := mkWorld { frame : DataFrame; stdout : list (list frag) }.

Definition M (A : Type) : Type := world -> outcome A * world.

Definition ret {A} (a : A) : M A := fun w => (Ok a, w).

Definition raise {A} (e : exn) : M A := fun w => (Raise e, w).

Definition bind {A B} (m : M A) (k : A -> M B) : M B :=
  fun w =>
    match m w with
    | (Ok a, w') => k a w'
    | (Raise e, w') => (Raise e, w')
    end.

Notation "x <- c1 ;; c2" := (bind c1 (fun x => c2))
  (at level 61, c1 at next level, right associativity).
Notation "' pat <- c1 ;; c2" := (bind c1 (fun x => match x with pat => c2 end))
  (at level 61, pat pattern, c1 at next level, right associativity).

Definition lift {A} (o : outcome A) : M A := fun w => (o, w).

Definition get_frame : M DataFrame := fun w => (Ok (frame w), w).

Definition print (line : list frag) : M unit :=
  fun w => (Ok tt, mkWorld (frame w) (stdout w ++ [line])).

(* ================================================================== *)
(** * The pandas operations used by the module *)
(* ================================================================== *)

(** [df[key]]: the column as a sequence of cells, [KeyError] when absent. *)
Definition getitem (df : DataFrame) (key : string) : outcome (list cell) :=
  match get_loc (columns df) key with
  | Some i => Ok (map (fun r => value_at r i) (rows df))
  | None => Raise (KeyError key)
  end.

(** [series.isna().sum()] *)
Definition isna_sum (s : list cell) : Z := Z.of_nat (List.length (filter isna s)).

(** [df.isna().any()]: per column, whether some row is missing there. *)
Definition isna_any (df : DataFrame) : list bool :=
  map (fun i => existsb (fun r => isna (value_at r i)) (rows df))
      (seq 0 (List.length (columns df))).

(** [index[mask]] for a boolean mask. *)
Fixpoint mask_select {A} (xs : list A) (mask : list bool) : list A :=
  match xs, mask with
  | x :: xs', b :: mask' => if b then x :: mask_select xs' mask' else mask_select xs' mask'
  | _, _ => []
  end.

(** [df.dropna(subset=key, inplace=True)]: the rows missing in [key] leave the
    object itself; [KeyError] when the label is absent. *)
Definition dropna (key : string) : M unit :=
  fun w =>
    match get_loc (columns (frame w)) key with
    | Some i =>
        (Ok tt,
         mkWorld (mkFrame (columns (frame w))
                          (filter (fun r => negb (isna (value_at r i))) (rows (frame w))))
                 (stdout w))
    | None => (Raise (KeyError key), w)
    end.

(** Conversion of an integer to binary64, rounding to nearest even. *)
Definition float_of_int (z : Z) : float :=
  SF2Prim (binary_normalize prec emax z 0 false).

(* ================================================================== *)
(** * drop_cols *)
(* ================================================================== *)

(** The bounds of a numpy int64. *)
Definition int64_range (z : Z) : bool := (- 2 ^ 63 <=? z) && (z <? 2 ^ 63).

(** [num / den] for a numpy int64 [num] and a Python int [den]: numpy turns
    [den] into an int64, which raises [OverflowError] when [den] is out of
    bounds, and divides in binary64; a zero [den] gives inf or nan, not an
    exception. *)
Definition int64_truediv (num den : Z) : outcome float :=
  if int64_range den
  then Ok (PrimFloat.div (float_of_int num) (float_of_int den))
  else Raise OverflowError.

(** [numpy.rint]: the nearest integer, ties to even. *)
Definition rint (x : float) : float :=
  match Prim2SF x with
  | S754_finite s m e =>
      if 0 <=? e then x
      else
        let d := 2 ^ (- e) in
        let q := Zpos m / d in
        let r := Zpos m mod d in
        let z := if 2 * r <? d then q
                 else if d <? 2 * r then q + 1
                 else if Z.even q then q else q + 1 in
        if z =? 0 then (if s then neg_zero else zero)
        else if s then PrimFloat.opp (float_of_int z) else float_of_int z
  | _ => x
  end.

(** [round(x, decimals)] for a numpy float64 and positive [decimals]: numpy
    multiplies by [10**decimals], rounds to the nearest integer and divides
    again. *)
Definition np_round (x : float) (decimals : Z) : float :=
  let f := float_of_int (10 ^ decimals) in
  PrimFloat.div (rint (PrimFloat.mul x f)) f.

(** The f-string of [drop_cols]:
    [f'Dropped {num_nan} rows due to nan values in {drop_col} column,
       corresponding to a {round((num_nan/len_df)*100,3)}% of the dataset length'].
    Its fields are evaluated before anything is printed. *)
Definition fstring_dropped (num_nan : Z) (drop_col : string) (len_df : Z)
    : outcome (list frag) :=
  match int64_truediv num_nan len_df with
  | Ok ratio =>
      Ok [ Lit "Dropped "; FInt num_nan; Lit " rows due to nan values in ";
           FStr drop_col; Lit " column, corresponding to a ";
           FFloat (np_round (PrimFloat.mul ratio (float_of_int 100)) 3);
           Lit "% of the dataset length" ]
  | Raise e => Raise e
  end.

(** The [for drop_col in cols:] loop. *)
Fixpoint drop_cols_for (cols : list string) (len_df : Z) : M unit :=
  match cols with
  | [] => ret tt
  | drop_col :: rest =>
      df <- get_frame ;;
      col <- lift (getitem df drop_col) ;;
      let num_nan := isna_sum col in
      line <- lift (fstring_dropped num_nan drop_col len_df) ;;
      _ <- print line ;;
      _ <- dropna drop_col ;;
      drop_cols_for rest len_df
  end.

(** [drop_cols(df, cols, len_df)]; the value returned is the object [df]. *)
Definition drop_cols (cols : list string) (len_df : Z) : M DataFrame :=
  _ <- drop_cols_for cols len_df ;;
  get_frame.

(* ================================================================== *)
(** * Name resolution *)
(* ================================================================== *)

(** The objects a name of this module can be bound to. *)
Inductive pyobj : Type :=
| ODataFrame
| OList (l : list string)
| OInt (z : Z)
| OFloat (f : float)
| OModule (name : string)
| OFunction (name : string)
| OBuiltin (name : string).

Fixpoint assoc {A} (env : list (string * A)) (x : string) : option A :=
  match env with
  | [] => None
  | (y, v) :: env' => if String.eqb y x then Some v else assoc env' x
  end.

(** The module namespace once [titanic_utils.py] has been executed: the two
    imports, the three [def]s and what the import system sets. *)
Definition module_globals : list (string * pyobj) :=
  [ ("__name__", OBuiltin "str"); ("__doc__", OBuiltin "None");
    ("__package__", OBuiltin "str"); ("__loader__", OBuiltin "object");
    ("__spec__", OBuiltin "object"); ("__file__", OBuiltin "str");
    ("__cached__", OBuiltin "str"); ("__builtins__", OModule "builtins");
    ("np", OModule "numpy"); ("pd", OModule "pandas");
    ("clean_nan_values", OFunction "clean_nan_values");
    ("id_nan_columns", OFunction "id_nan_columns");
    ("drop_cols", OFunction "drop_cols") ].

(** The names of the [builtins] module. *)
Definition builtin_names : list string :=
  [ "abs"; "aiter"; "all"; "anext"; "any"; "ascii"; "bin"; "bool"; "breakpoint";
    "bytearray"; "bytes"; "callable"; "chr"; "classmethod"; "compile"; "complex";
    "copyright"; "credits"; "delattr"; "dict"; "dir"; "divmod"; "enumerate"; "eval";
    "exec"; "exit"; "filter"; "float"; "format"; "frozenset"; "getattr"; "globals";
    "hasattr"; "hash"; "help"; "hex"; "id"; "input"; "int"; "isinstance";
    "issubclass"; "iter"; "len"; "license"; "list"; "locals"; "map"; "max";
    "memoryview"; "min"; "next"; "object"; "oct"; "open"; "ord"; "pow"; "print";
    "property"; "quit"; "range"; "repr"; "reversed"; "round"; "set"; "setattr";
    "slice"; "sorted"; "staticmethod"; "str"; "sum"; "super"; "tuple"; "type";
    "vars"; "zip"; "__import__"; "__build_class__"; "__debug__"; "__doc__";
    "__loader__"; "__name__"; "__package__"; "__spec__";
    "None"; "True"; "False"; "Ellipsis"; "NotImplemented";
    "BaseException"; "BaseExceptionGroup"; "Exception"; "ExceptionGroup";
    "GeneratorExit"; "KeyboardInterrupt"; "SystemExit"; "ArithmeticError";
    "AssertionError"; "AttributeError"; "BlockingIOError"; "BrokenPipeError";
    "BufferError"; "ChildProcessError"; "ConnectionAbortedError"; "ConnectionError";
    "ConnectionRefusedError"; "ConnectionResetError"; "EOFError"; "EnvironmentError";
    "FileExistsError"; "FileNotFoundError"; "FloatingPointError"; "IOError";
    "ImportError"; "IndentationError"; "IndexError"; "InterruptedError";
    "IsADirectoryError"; "KeyError"; "LookupError"; "MemoryError";
    "ModuleNotFoundError"; "NameError"; "NotADirectoryError"; "NotImplementedError";
    "OSError"; "OverflowError"; "PermissionError"; "ProcessLookupError";
    "PythonFinalizationError"; "RecursionError"; "ReferenceError"; "RuntimeError";
    "StopAsyncIteration"; "StopIteration"; "SyntaxError"; "SystemError"; "TabError";
    "TimeoutError"; "TypeError"; "UnboundLocalError"; "UnicodeDecodeError";
    "UnicodeEncodeError"; "UnicodeError"; "UnicodeTranslateError"; "ValueError";
    "ZeroDivisionError"; "Warning"; "BytesWarning"; "DeprecationWarning";
    "EncodingWarning"; "FutureWarning"; "ImportWarning";
    "PendingDeprecationWarning"; "ResourceWarning"; "RuntimeWarning";
    "SyntaxWarning"; "UnicodeWarning"; "UserWarning" ].

(** Reading a name inside a function body.  A name the function assigns
    somewhere (its [co_varnames]) is a local: it is read from the frame and is
    an [UnboundLocalError] while unassigned.  Any other name is looked up in
    the module namespace, then in [builtins]; none of the three functions is
    nested, so there is no enclosing function scope.  A name found nowhere is
    a [NameError]. *)
Definition load_name (co_varnames : list string) (locals : list (string * pyobj))
    (x : string) : M pyobj :=
  if existsb (String.eqb x) co_varnames then
    match assoc locals x with
    | Some v => ret v
    | None => raise (UnboundLocalError x)
    end
  else
    match assoc module_globals x with
    | Some v => ret v
    | None =>
        if existsb (String.eqb x) builtin_names then ret (OBuiltin x)
        else raise (NameError x)
    end.

(** [iter(obj)] followed by exhausting the iterator: a list gives its items,
    a DataFrame its column labels; the other objects are not iterable. *)
Definition iterate (o : pyobj) : M (list string) :=
  match o with
  | OList l => ret l
  | ODataFrame => df <- get_frame ;; ret (columns df)
  | OInt _ => raise (TypeError "'int' object is not iterable")
  | OFloat _ => raise (TypeError "'float' object is not iterable")
  | OModule _ => raise (TypeError "'module' object is not iterable")
  | OFunction _ => raise (TypeError "'function' object is not iterable")
  | OBuiltin _ => raise (TypeError "object is not iterable")
  end.

(* ================================================================== *)
(** * id_nan_columns *)
(* ================================================================== *)

(** [int * float]: the int is converted to a float first, which raises
    [OverflowError] when it is too large for binary64. *)
Definition int_mul_float (n : Z) (x : float) : outcome float :=
  let f := float_of_int n in
  if is_infinity f then Raise OverflowError else Ok (PrimFloat.mul f x).

(** [count > bound] for a numpy int64 count and a float: compared as binary64. *)
Definition int64_gt_float (count : Z) (bound : float) : bool :=
  PrimFloat.ltb bound (float_of_int count).

(** The body of the [for column in ...:] loop, run over the items [items]
    that the iterable has produced; [acc] holds the two lists
    [(replacing_nans, drop_nans)] built so far. *)
Fixpoint classify_for (items : list string) (len_df : Z) (max_nans : float)
    (acc : list string * list string) : M (list string * list string) :=
  match items with
  | [] => ret acc
  | column :: rest =>
      let '(replacing_nans, drop_nans) := acc in
      df <- get_frame ;;
      col <- lift (getitem df column) ;;
      bound <- lift (int_mul_float len_df max_nans) ;;
      if int64_gt_float (isna_sum col) bound
      then classify_for rest len_df max_nans (replacing_nans ++ [column], drop_nans)
      else classify_for rest len_df max_nans (replacing_nans, drop_nans ++ [column])
  end.

(** The names [id_nan_columns] assigns: its parameters, the two lists and the
    loop variable. *)
Definition id_nan_columns_varnames : list string :=
  [ "df"; "columns"; "len_df"; "max_nans"; "drop_nans"; "replacing_nans"; "column" ].

(** [id_nan_columns(df, columns, len_df, max_nans)].  The [for] statement reads
    the name [colummns_wnan], not the parameter [columns]. *)
Definition id_nan_columns (columns : list string) (len_df : Z) (max_nans : float)
    : M (list string * list string) :=
  let drop_nans : list string := [] in
  let replacing_nans : list string := [] in
  let locals :=
    [ ("df", ODataFrame); ("columns", OList columns); ("len_df", OInt len_df);
      ("max_nans", OFloat max_nans); ("drop_nans", OList drop_nans);
      ("replacing_nans", OList replacing_nans) ] in
  iterable <- load_name id_nan_columns_varnames locals "colummns_wnan" ;;
  items <- iterate iterable ;;
  classify_for items len_df max_nans (replacing_nans, drop_nans).

(** The default of the parameter [max_nans]: the binary64 value of [0.05]. *)
Definition default_max_nans : float := 0x1.999999999999ap-5%float.

(* ================================================================== *)
(** * clean_nan_values *)
(* ================================================================== *)

(** [df.columns[df.isna().any()].tolist()] *)
Definition columns_with_nan (df : DataFrame) : list string :=
  mask_select (columns df) (isna_any df).

(** [clean_nan_values(df)] *)
Definition clean_nan_values : M (DataFrame * list string) :=
  df <- get_frame ;;
  let colummns_wnan := columns_with_nan df in
  let len_df := Z.of_nat (List.length (rows df)) in
  '(replacing_nans, drop_nans) <- id_nan_columns colummns_wnan len_df default_max_nans ;;
  df' <- drop_cols drop_nans len_df ;;
  ret (df', replacing_nans).

(* ================================================================== *)
(** * Specification vocabulary *)
(* ================================================================== *)

(** [subseq l1 l2]: [l1] is [l2] with some elements left out, order kept. *)
Inductive subseq {A : Type} : list A -> list A -> Prop :=
| subseq_nil : subseq [] []
| subseq_keep x l1 l2 : subseq l1 l2 -> subseq (x :: l1) (x :: l2)
| subseq_skip x l1 l2 : subseq l1 l2 -> subseq l1 (x :: l2).

(** Row [r] holds a value in every column of [cs]. *)
Definition complete_in (names : list string) (cs : list string) (r : row) : bool :=
  forallb (fun c => negb (isna_at names r c)) cs.

(** [df] without the rows that are missing in some column of [cs]. *)
Definition keep_complete (df : DataFrame) (cs : list string) : DataFrame :=
  mkFrame (columns df) (filter (complete_in (columns df) cs) (rows df)).

(** The number of rows of [df] that are missing in [c] and in none of the
    columns [done]: what is left to count in [c] once the rows missing in
    [done] have gone. *)
Definition live_missing (df : DataFrame) (done : list string) (c : string) : Z :=
  Z.of_nat (List.length
    (filter (fun r => complete_in (columns df) done r && isna_at (columns df) r c)
            (rows df))).

(** The percentage as [drop_cols] computes it: [round((n/len_df)*100, 3)],
    every step in binary64. *)
Definition percent_of (n len_df : Z) : float :=
  np_round (PrimFloat.mul (PrimFloat.div (float_of_int n) (float_of_int len_df))
                          (float_of_int 100)) 3.

(** The percentage by the formula [round(100 * n / len_df, 3)]. *)
Definition percent_by_formula (n len_df : Z) : float :=
  np_round (PrimFloat.div (float_of_int (100 * n)) (float_of_int len_df)) 3.

(** The line that reports [n] rows for column [c]. *)
Definition dropped_line (n : Z) (c : string) (len_df : Z) : list frag :=
  [ Lit "Dropped "; FInt n; Lit " rows due to nan values in "; FStr c;
    Lit " column, corresponding to a "; FFloat (percent_of n len_df);
    Lit "% of the dataset length" ].

(** The lines printed for [cols] when the columns [done] came before. *)
Fixpoint dropped_lines (df : DataFrame) (done cols : list string) (len_df : Z)
    : list (list frag) :=
  match cols with
  | [] => []
  | c :: cs =>
      dropped_line (live_missing df done c) c len_df
        :: dropped_lines df (done ++ [c]) cs len_df
  end.

(** The test of the classifier's loop body on column [c], for the bound
    [len_df*max_nans] already computed. *)
Definition exceeds (df : DataFrame) (bound : float) (c : string) : bool :=
  int64_gt_float (live_missing df [] c) bound.

(** The row counts a printed line reports: its integer fields. *)
Fixpoint reported (line : list frag) : Z :=
  match line with
  | [] => 0
  | FInt n :: rest => n + reported rest
  | _ :: rest => reported rest
  end.

(** The sum of the integers of a list. *)
Definition total (l : list Z) : Z := fold_right Z.add 0 l.

(** The percentage in a printed line, when it has one. *)
Fixpoint percentage (line : list frag) : option float :=
  match line with
  | [] => None
  | FFloat x :: _ => Some x
  | _ :: rest => percentage rest
  end.

(* ================================================================== *)
(** * Sample tables *)
(* ================================================================== *)

(** Four passengers; [age] is missing once and [cabin] three times. *)
Definition passengers : DataFrame :=
  mkFrame [ "name"; "age"; "cabin" ]
    [ mkRow 0 [ CStr "Braund"; CFloat 22; CNone ];
      mkRow 1 [ CStr "Cumings"; CFloat nan; CStr "C85" ];
      mkRow 2 [ CStr "Heikkinen"; CFloat 26; CNone ];
      mkRow 3 [ CStr "Futrelle"; CFloat 35; CNone ] ].

(** Ten rows; [a] is missing in rows 0-4 and [b] in rows 3-5. *)
Definition overlapping : DataFrame :=
  mkFrame [ "a"; "b" ]
    (map (fun i : nat =>
            mkRow (Z.of_nat i)
              [ if Nat.ltb i 5 then CFloat nan else CInt 1;
                if Nat.leb 3 i && Nat.leb i 5 then CNone else CStr "x" ])
         (seq 0 10)).

(** Twenty-two rows; [d] is missing in row 0 and [r] in rows 0 and 1. *)
Definition relapse : DataFrame :=
  mkFrame [ "d"; "r" ]
    (map (fun i : nat =>
            mkRow (Z.of_nat i)
              [ if Nat.eqb i 0 then CNone else CInt 7;
                if Nat.ltb i 2 then CFloat nan else CFloat 1 ])
         (seq 0 22)).

(** A hundred rows; [age] is missing in rows 0-2 and [cabin] in rows 30-99. *)
Definition hundred : DataFrame :=
  mkFrame [ "age"; "cabin" ]
    (map (fun i : nat =>
            mkRow (Z.of_nat i)
              [ if Nat.ltb i 3 then CFloat nan else CFloat 30;
                if Nat.leb 30 i then CNone else CStr "B5" ])
         (seq 0 100)).

Definition fresh (df : DataFrame) : world := mkWorld df [].

(** Eight thousand rows; [fare] is missing in rows 0-10. *)
Definition sparse : DataFrame :=
  mkFrame [ "fare" ]
    (map (fun i : nat => mkRow (Z.of_nat i) [ if Nat.ltb i 11 then CFloat nan else CFloat 8 ])
         (seq 0 (80 * 100))).

(** [relapse] after the rows missing in [d] have been dropped. *)
Definition relapse_once : world := snd (drop_cols [ "d" ] 22 (fresh relapse)).

(* ================================================================== *)
(** * Facts about lists and labels *)
(* ================================================================== *)

Section ListFacts.
Context {A B : Type}.

Lemma filter_filter (p q : A -> bool) (l : list A) :
  filter p (filter q l) = filter (fun x => q x && p x) l.
Proof.
  induction l as [|x l IH]; simpl; [reflexivity|].
  destruct (q x); simpl; [destruct (p x)|]; rewrite ?IH; reflexivity.
Qed.

Lemma filter_map_length (p : B -> bool) (f : A -> B) (l : list A) :
  List.length (filter p (map f l)) = List.length (filter (fun x => p (f x)) l).
Proof.
  induction l as [|x l IH]; simpl; [reflexivity|].
  destruct (p (f x)); simpl; rewrite IH; reflexivity.
Qed.

Lemma filter_all (p : A -> bool) (l : list A) :
  (forall x, In x l -> p x = true) -> filter p l = l.
Proof.
  induction l as [|x l IH]; simpl; intros H; [reflexivity|].
  rewrite (H x (or_introl eq_refl)), IH; auto.
Qed.

Lemma filter_none (p : A -> bool) (l : list A) :
  (forall x, In x l -> p x = false) -> filter p l = [].
Proof.
  induction l as [|x l IH]; simpl; intros H; [reflexivity|].
  rewrite (H x (or_introl eq_refl)), IH; auto.
Qed.

Lemma subseq_refl (l : list A) : subseq l l.
Proof. induction l; constructor; assumption. Qed.

Lemma filter_subseq (p : A -> bool) (l : list A) : subseq (filter p l) l.
Proof.
  induction l as [|x l IH]; simpl; [constructor|].
  destruct (p x); constructor; assumption.
Qed.

Lemma subseq_In (l1 l2 : list A) : subseq l1 l2 -> forall x, In x l1 -> In x l2.
Proof.
  induction 1; simpl; intros y Hy; auto.
  destruct Hy; auto.
Qed.
End ListFacts.

Lemma get_loc_None names c : get_loc names c = None <-> ~ In c names.
Proof.
  induction names as [|n ns IH]; simpl.
  - tauto.
  - destruct (String.eqb_spec n c) as [->|Hne].
    + split; [discriminate | intros H; exfalso; apply H; auto].
    + destruct (get_loc ns c); simpl.
      * split; [discriminate|]. intros H. exfalso. apply H. right.
        destruct (in_dec string_dec c ns) as [Hin|Hn]; [assumption|].
        apply IH in Hn. discriminate.
      * split; [|reflexivity]. intros _ [H|H]; [congruence|].
        apply (proj1 IH); auto.
Qed.

Lemma get_loc_In names c : In c names -> exists i, get_loc names c = Some i.
Proof.
  intros Hin. destruct (get_loc names c) as [i|] eqn:E; [eauto|].
  apply get_loc_None in E. contradiction.
Qed.

Lemma get_loc_nth names c i : get_loc names c = Some i -> nth_error names i = Some c.
Proof.
  revert i. induction names as [|n ns IH]; simpl; intros i; [discriminate|].
  destruct (String.eqb_spec n c) as [->|Hne].
  - intros [= <-]. reflexivity.
  - destruct (get_loc ns c) as [j|]; simpl; [|discriminate].
    intros [= <-]. simpl. auto.
Qed.

(** Among labels, either all of [cols] occur in [names] or there is a first
    one that does not. *)
Lemma first_absent (names cols : list string) :
  incl cols names \/
  exists pre c post, cols = pre ++ c :: post /\ incl pre names /\ ~ In c names.
Proof.
  induction cols as [|c cs IH].
  - left. intros x [].
  - destruct (in_dec string_dec c names) as [Hin|Hn].
    + destruct IH as [IH|(pre & x & post & -> & Hpre & Hx)].
      * left. intros x [<-|Hx]; auto.
      * right. exists (c :: pre), x, post. repeat split; auto.
        intros y [<-|Hy]; auto.
    + right. exists [], c, cs. repeat split; auto. intros x [].
Qed.

Lemma firstn_subseq_In (i : nat) (l : list string) (x : string) :
  In x (firstn i l) -> In x l.
Proof.
  revert i. induction l as [|y l IH]; intros [|i]; simpl; try tauto.
  intros [->|H]; eauto.
Qed.

Lemma complete_in_app names cs1 cs2 r :
  complete_in names (cs1 ++ cs2) r = complete_in names cs1 r && complete_in names cs2 r.
Proof. unfold complete_in. apply forallb_app. Qed.

Lemma complete_in_spec names cs r :
  complete_in names cs r = true <-> forall c, In c cs -> isna_at names r c = false.
Proof.
  unfold complete_in. rewrite forallb_forall. split; intros H c Hc.
  - apply negb_true_iff. auto.
  - apply negb_true_iff. auto.
Qed.

Lemma keep_complete_nil df : keep_complete df [] = df.
Proof.
  destruct df as [names rs]. unfold keep_complete. simpl. f_equal.
  apply filter_all. reflexivity.
Qed.

(* ================================================================== *)
(** * What the loop of drop_cols computes *)
(* ================================================================== *)

Lemma isna_sum_column names rs done c i :
  get_loc names c = Some i ->
  isna_sum (map (fun r => value_at r i) (filter (complete_in names done) rs))
  = live_missing (mkFrame names rs) done c.
Proof.
  intros Hloc. unfold isna_sum, live_missing. simpl. f_equal.
  rewrite filter_map_length, filter_filter. f_equal.
  apply filter_ext. intros r. unfold isna_at. rewrite Hloc. reflexivity.
Qed.

Lemma dropna_keep_complete names rs done c i :
  get_loc names c = Some i ->
  filter (fun r => negb (isna (value_at r i))) (filter (complete_in names done) rs)
  = filter (complete_in names (done ++ [c])) rs.
Proof.
  intros Hloc. rewrite filter_filter. apply filter_ext. intros r.
  rewrite complete_in_app. f_equal. unfold complete_in, isna_at. simpl.
  rewrite Hloc, andb_true_r. reflexivity.
Qed.

Lemma fstring_dropped_in_range n c len_df :
  int64_range len_df = true ->
  fstring_dropped n c len_df = Ok (dropped_line n c len_df).
Proof.
  intros H. unfold fstring_dropped, int64_truediv. rewrite H. reflexivity.
Qed.

Lemma fstring_dropped_overflow n c len_df :
  int64_range len_df = false -> fstring_dropped n c len_df = Raise OverflowError.
Proof.
  intros H. unfold fstring_dropped, int64_truediv. rewrite H. reflexivity.
Qed.

(** One iteration on a present column, with a row count numpy accepts. *)
Lemma drop_cols_for_step df0 done c cs len_df w :
  frame w = keep_complete df0 done ->
  In c (columns df0) ->
  int64_range len_df = true ->
  drop_cols_for (c :: cs) len_df w
  = drop_cols_for cs len_df
      (mkWorld (keep_complete df0 (done ++ [c]))
               (stdout w ++ [dropped_line (live_missing df0 done c) c len_df])).
Proof.
  intros Hw Hin Hr. destruct (get_loc_In _ _ Hin) as [i Hloc].
  destruct df0 as [names rs]. destruct w as [fr out]. simpl in *. subst fr.
  unfold bind, get_frame, lift, getitem, keep_complete. simpl.
  rewrite Hloc.
  rewrite (isna_sum_column names rs done c i Hloc).
  rewrite (fstring_dropped_in_range _ c len_df Hr).
  unfold print, dropna. simpl. rewrite Hloc.
  rewrite (dropna_keep_complete names rs done c i Hloc). reflexivity.
Qed.

(** One iteration on an absent column: [df[drop_col]] raises, nothing is
    printed and nothing is removed. *)
Lemma drop_cols_for_absent df0 done c cs len_df w :
  frame w = keep_complete df0 done ->
  ~ In c (columns df0) ->
  drop_cols_for (c :: cs) len_df w = (Raise (KeyError c), w).
Proof.
  intros Hw Hn. apply get_loc_None in Hn.
  unfold drop_cols_for, bind, get_frame, lift, getitem.
  rewrite Hw. simpl. rewrite Hn. reflexivity.
Qed.

(** One iteration on a present column with a row count out of the int64
    bounds: the division raises, nothing is printed and nothing is removed. *)
Lemma drop_cols_for_overflow c cs len_df w :
  In c (columns (frame w)) ->
  int64_range len_df = false ->
  drop_cols_for (c :: cs) len_df w = (Raise OverflowError, w).
Proof.
  intros Hin Hr. destruct (get_loc_In _ _ Hin) as [i Hloc].
  unfold drop_cols_for, bind, get_frame, lift, getitem.
  rewrite Hloc, (fstring_dropped_overflow _ c len_df Hr). reflexivity.
Qed.

(** The loop over columns that are all present. *)
Lemma drop_cols_for_present df0 cols : forall done len_df w,
  frame w = keep_complete df0 done ->
  incl cols (columns df0) ->
  int64_range len_df = true ->
  drop_cols_for cols len_df w
  = (Ok tt, mkWorld (keep_complete df0 (done ++ cols))
                    (stdout w ++ dropped_lines df0 done cols len_df)).
Proof.
  induction cols as [|c cs IH]; intros done len_df w Hw Hincl Hr.
  - simpl. rewrite !app_nil_r, <- Hw. destruct w; reflexivity.
  - rewrite (drop_cols_for_step df0 done c cs len_df w Hw (Hincl c (or_introl eq_refl)) Hr).
    rewrite (IH (done ++ [c])); simpl; auto.
    + rewrite <- !app_assoc. reflexivity.
    + intros x Hx. apply Hincl. right. assumption.
Qed.

(** The loop that meets an absent column [c] after the present ones [pre]. *)
Lemma drop_cols_for_raises df0 pre c post : forall done len_df w,
  frame w = keep_complete df0 done ->
  incl pre (columns df0) ->
  ~ In c (columns df0) ->
  pre = [] \/ int64_range len_df = true ->
  drop_cols_for (pre ++ c :: post) len_df w
  = (Raise (KeyError c),
     mkWorld (keep_complete df0 (done ++ pre))
             (stdout w ++ dropped_lines df0 done pre len_df)).
Proof.
  induction pre as [|p ps IH]; intros done len_df w Hw Hincl Hn Hr.
  - simpl app. rewrite (drop_cols_for_absent df0 done c post len_df w Hw Hn).
    simpl. rewrite !app_nil_r, <- Hw. destruct w; reflexivity.
  - destruct Hr as [Hr|Hr]; [discriminate|].
    simpl app. rewrite (drop_cols_for_step df0 done p (ps ++ c :: post) len_df w Hw
                          (Hincl p (or_introl eq_refl)) Hr).
    rewrite (IH (done ++ [p])); simpl; auto.
    + rewrite <- !app_assoc. reflexivity.
    + intros x Hx. apply Hincl. right. assumption.
Qed.

Lemma frame_keep_nil w : frame w = keep_complete (frame w) [].
Proof. symmetry. apply keep_complete_nil. Qed.

(** [drop_cols] on no column at all. *)
Lemma drop_cols_nil len_df w : drop_cols [] len_df w = (Ok (frame w), w).
Proof. reflexivity. Qed.

(** [drop_cols] on columns that are all present. *)
Lemma drop_cols_present w cols len_df :
  incl cols (columns (frame w)) ->
  int64_range len_df = true ->
  drop_cols cols len_df w
  = (Ok (keep_complete (frame w) cols),
     mkWorld (keep_complete (frame w) cols)
             (stdout w ++ dropped_lines (frame w) [] cols len_df)).
Proof.
  intros Hincl Hr. unfold drop_cols, bind.
  rewrite (drop_cols_for_present (frame w) cols [] len_df w (frame_keep_nil w) Hincl Hr).
  reflexivity.
Qed.

(** [drop_cols] that meets a first absent column. *)
Lemma drop_cols_raises w pre c post len_df :
  incl pre (columns (frame w)) ->
  ~ In c (columns (frame w)) ->
  pre = [] \/ int64_range len_df = true ->
  drop_cols (pre ++ c :: post) len_df w
  = (Raise (KeyError c),
     mkWorld (keep_complete (frame w) pre)
             (stdout w ++ dropped_lines (frame w) [] pre len_df)).
Proof.
  intros Hincl Hn Hr. unfold drop_cols, bind.
  rewrite (drop_cols_for_raises (frame w) pre c post [] len_df w (frame_keep_nil w)
             Hincl Hn Hr).
  reflexivity.
Qed.

(** [drop_cols] given a row count out of the int64 bounds and a first column
    that is present. *)
Lemma drop_cols_overflow w c cs len_df :
  In c (columns (frame w)) ->
  int64_range len_df = false ->
  drop_cols (c :: cs) len_df w = (Raise OverflowError, w).
Proof.
  intros Hin Hr. unfold drop_cols, bind.
  rewrite (drop_cols_for_overflow c cs len_df w Hin Hr). reflexivity.
Qed.

(** A [drop_cols] that returns was given present columns only; it returns
    the table without the rows missing in one of them and has printed the
    lines for them. *)
Lemma drop_cols_ok_inv w cols len_df df' w' :
  drop_cols cols len_df w = (Ok df', w') ->
  incl cols (columns (frame w))
  /\ df' = keep_complete (frame w) cols
  /\ w' = mkWorld (keep_complete (frame w) cols)
                  (stdout w ++ dropped_lines (frame w) [] cols len_df).
Proof.
  intros Hrun. destruct cols as [|c cs].
  - rewrite drop_cols_nil in Hrun. injection Hrun as <- <-.
    rewrite keep_complete_nil. simpl. rewrite app_nil_r.
    split; [intros x []|]. split; [reflexivity | destruct w; reflexivity].
  - destruct (int64_range len_df) eqn:Hr.
    + destruct (first_absent (columns (frame w)) (c :: cs))
        as [Hincl|(pre & x & post & E & Hpre & Hx)].
      * rewrite (drop_cols_present w (c :: cs) len_df Hincl Hr) in Hrun.
        injection Hrun as <- <-. auto.
      * rewrite E, (drop_cols_raises w pre x post len_df Hpre Hx (or_intror Hr)) in Hrun.
        discriminate.
    + destruct (in_dec string_dec c (columns (frame w))) as [Hin|Hn].
      * rewrite (drop_cols_overflow w c cs len_df Hin Hr) in Hrun. discriminate.
      * change (c :: cs) with ([] ++ c :: cs) in Hrun.
        rewrite (drop_cols_raises w [] c cs len_df (fun x (F : In x []) => match F with end)
                   Hn (or_introl eq_refl)) in Hrun.
        discriminate.
Qed.

Lemma drop_cols_ok_incl w cols len_df df' w' :
  drop_cols cols len_df w = (Ok df', w') -> incl cols (columns (frame w)).
Proof. intros Hrun. apply (drop_cols_ok_inv w cols len_df df' w' Hrun). Qed.

Lemma dropped_lines_length df cols : forall done len_df,
  List.length (dropped_lines df done cols len_df) = List.length cols.
Proof.
  induction cols as [|c cs IH]; intros; simpl; [reflexivity|].
  rewrite IH. reflexivity.
Qed.

Lemma dropped_lines_nth df cols : forall done len_df i c,
  nth_error cols i = Some c ->
  nth_error (dropped_lines df done cols len_df) i
  = Some (dropped_line (live_missing df (done ++ firstn i cols) c) c len_df).
Proof.
  induction cols as [|x cs IH]; intros done len_df i c Hi.
  - destruct i; discriminate.
  - destruct i as [|i]; simpl in *.
    + injection Hi as ->. rewrite app_nil_r. reflexivity.
    + rewrite (IH _ _ _ _ Hi). rewrite <- app_assoc. reflexivity.
Qed.

(* ================================================================== *)
(** * The candidate columns of clean_nan_values *)
(* ================================================================== *)

Lemma mask_select_In {A : Type} (xs : list A) (f : nat -> bool) (c : A) : forall k,
  In c (mask_select xs (map f (seq k (List.length xs))))
  <-> exists i, nth_error xs i = Some c /\ f (k + i)%nat = true.
Proof.
  induction xs as [|x xs IH]; intros k; simpl.
  - split; [intros [] | intros ([|i] & Hi & _); discriminate].
  - split.
    + destruct (f k) eqn:Ek.
      * intros [<-|Hin].
        -- exists 0%nat. rewrite Nat.add_0_r. auto.
        -- apply IH in Hin. destruct Hin as (i & Hi & Hf).
           exists (S i). rewrite Nat.add_succ_r. auto.
      * intros Hin. apply IH in Hin. destruct Hin as (i & Hi & Hf).
        exists (S i). rewrite Nat.add_succ_r. auto.
    + intros ([|i] & Hi & Hf); simpl in Hi.
      * injection Hi as ->. rewrite Nat.add_0_r in Hf. rewrite Hf. left. reflexivity.
      * rewrite Nat.add_succ_r in Hf.
        assert (In c (mask_select xs (map f (seq (S k) (List.length xs))))) as Hin
          by (apply IH; eauto).
        destruct (f k); [right|]; assumption.
Qed.

Lemma existsb_eqb_In x l : existsb (String.eqb x) l = true <-> In x l.
Proof.
  rewrite existsb_exists. split.
  - intros (y & Hy & E). apply String.eqb_eq in E. subst. assumption.
  - intros H. exists x. split; [assumption | apply String.eqb_refl].
Qed.

Lemma get_loc_nodup names : forall i c,
  nodupb names = true -> nth_error names i = Some c -> get_loc names c = Some i.
Proof.
  induction names as [|n ns IH]; intros i c Hnd Hi.
  - destruct i; discriminate.
  - simpl in Hnd. apply andb_true_iff in Hnd. destruct Hnd as [Hfresh Hnd].
    apply negb_true_iff in Hfresh.
    destruct i as [|i]; simpl in *.
    + injection Hi as ->. rewrite String.eqb_refl. reflexivity.
    + destruct (String.eqb_spec n c) as [->|Hne].
      * apply nth_error_In in Hi. apply existsb_eqb_In in Hi. congruence.
      * rewrite (IH i c Hnd Hi). reflexivity.
Qed.

(** A column is a candidate exactly when some row is missing in it. *)
Lemma columns_with_nan_spec df c :
  wf_frame df = true ->
  In c (columns_with_nan df)
  <-> exists r, In r (rows df) /\ isna_at (columns df) r c = true.
Proof.
  intros Hwf. apply andb_true_iff in Hwf. destruct Hwf as [Hnd _].
  unfold columns_with_nan, isna_any.
  rewrite (mask_select_In (columns df)
             (fun i => existsb (fun r => isna (value_at r i)) (rows df)) c 0).
  split.
  - intros (i & Hi & Hex). simpl in Hex. apply existsb_exists in Hex.
    destruct Hex as (r & Hr & Hna). exists r. split; [assumption|].
    unfold isna_at. rewrite (get_loc_nodup _ _ _ Hnd Hi). assumption.
  - intros (r & Hr & Hna). unfold isna_at in Hna.
    destruct (get_loc (columns df) c) as [i|] eqn:E; [|discriminate].
    exists i. split; [apply get_loc_nth; assumption|].
    simpl. apply existsb_exists. eauto.
Qed.

(* ================================================================== *)
(** * What the loop of id_nan_columns computes *)
(* ================================================================== *)

Lemma getitem_isna_sum df c :
  In c (columns df) ->
  exists col, getitem df c = Ok col /\ isna_sum col = live_missing df [] c.
Proof.
  intros Hin. destruct (get_loc_In _ _ Hin) as [i Hloc].
  unfold getitem. rewrite Hloc. eexists. split; [reflexivity|].
  destruct df as [names rs]. simpl in *.
  rewrite <- (isna_sum_column names rs [] c i Hloc).
  rewrite filter_all; [reflexivity | reflexivity].
Qed.

(** Run over present columns, the loop is a stable partition of its items
    by [exceeds] and leaves the world alone. *)
Lemma classify_for_present items : forall len_df max_nans bound repl drops w,
  incl items (columns (frame w)) ->
  int_mul_float len_df max_nans = Ok bound ->
  classify_for items len_df max_nans (repl, drops) w
  = (Ok (repl ++ filter (exceeds (frame w) bound) items,
         drops ++ filter (fun c => negb (exceeds (frame w) bound c)) items), w).
Proof.
  induction items as [|c cs IH]; intros len_df max_nans bound repl drops w Hincl Hb.
  - simpl. rewrite !app_nil_r. reflexivity.
  - destruct (getitem_isna_sum (frame w) c (Hincl c (or_introl eq_refl)))
      as (col & Hcol & Hsum).
    assert (incl cs (columns (frame w))) as Hcs
      by (intros x Hx; apply Hincl; right; assumption).
    simpl. unfold bind, get_frame, lift. rewrite Hcol, Hb, Hsum.
    fold (exceeds (frame w) bound c).
    destruct (exceeds (frame w) bound c); simpl;
      rewrite (IH len_df max_nans bound _ _ w Hcs Hb), <- !app_assoc; reflexivity.
Qed.

Lemma getitem_keep_complete df done c :
  In c (columns df) ->
  exists col, getitem (keep_complete df done) c = Ok col
              /\ isna_sum col = live_missing df done c.
Proof.
  intros Hin. destruct (get_loc_In _ _ Hin) as [i Hloc].
  unfold getitem, keep_complete. simpl. rewrite Hloc.
  eexists. split; [reflexivity|].
  destruct df as [names rs]. apply isna_sum_column. assumption.
Qed.

Lemma live_missing_zero df done c :
  In c done -> live_missing df done c = 0.
Proof.
  intros Hin. unfold live_missing. rewrite filter_none; [reflexivity|].
  intros r _. destruct (complete_in (columns df) done r) eqn:E; [|reflexivity].
  simpl. apply (proj1 (complete_in_spec _ _ _) E). assumption.
Qed.

Lemma keep_complete_rows_In df cs r :
  In r (rows (keep_complete df cs))
  <-> In r (rows df) /\ forall c, In c cs -> isna_at (columns df) r c = false.
Proof.
  unfold keep_complete. simpl. rewrite filter_In, complete_in_spec. reflexivity.
Qed.

Lemma wf_keep_complete df cs : wf_frame df = true -> wf_frame (keep_complete df cs) = true.
Proof.
  unfold wf_frame, keep_complete. simpl. intros H.
  apply andb_true_iff in H. destruct H as [Hnd Hlen].
  apply andb_true_iff. split; [assumption|].
  rewrite forallb_forall in *. intros r Hr. apply Hlen.
  apply filter_In in Hr. tauto.
Qed.

Lemma getitem_ok_In df c col : getitem df c = Ok col -> In c (columns df).
Proof.
  unfold getitem. intros H.
  destruct (in_dec string_dec c (columns df)) as [Hin|Hn]; [assumption|].
  apply get_loc_None in Hn. rewrite Hn in H. discriminate.
Qed.

(** A classifier loop that returns was given present columns only. *)
Lemma classify_for_ok_incl items : forall len_df max_nans acc w res w1,
  classify_for items len_df max_nans acc w = (Ok res, w1) ->
  incl items (columns (frame w)).
Proof.
  induction items as [|c cs IH]; intros len_df max_nans [repl0 drops0] w res w1 Hrun.
  - intros x [].
  - simpl in Hrun. unfold bind, get_frame, lift in Hrun.
    destruct (getitem (frame w) c) as [col|e] eqn:Hcol; [|discriminate].
    destruct (int_mul_float len_df max_nans) as [bound|e]; [|discriminate].
    apply getitem_ok_In in Hcol.
    destruct (int64_gt_float (isna_sum col) bound); apply IH in Hrun;
      intros x [<-|Hx]; auto.
Qed.

(** The loop of the classifier, when it returns, has left the world alone and
    has split its items, in order, by one test on the column. *)
Lemma classify_for_inv items len_df max_nans repl0 drops0 w repl drops w1 :
  classify_for items len_df max_nans (repl0, drops0) w = (Ok (repl, drops), w1) ->
  w1 = w /\
  exists p : string -> bool,
    repl = repl0 ++ filter p items /\
    drops = drops0 ++ filter (fun c => negb (p c)) items.
Proof.
  intros Hrun.
  pose proof (classify_for_ok_incl items len_df max_nans _ w _ w1 Hrun) as Hincl.
  destruct (int_mul_float len_df max_nans) as [bound|e] eqn:Hb.
  - rewrite (classify_for_present items len_df max_nans bound repl0 drops0 w Hincl Hb)
      in Hrun.
    injection Hrun as <- <- <-. split; [reflexivity|]. eauto.
  - destruct items as [|c cs].
    + simpl in Hrun. injection Hrun as <- <- <-. split; [reflexivity|].
      exists (fun _ => true). simpl. rewrite !app_nil_r. auto.
    + simpl in Hrun. unfold bind, get_frame, lift in Hrun. rewrite Hb in Hrun.
      destruct (getitem (frame w) c); discriminate.
Qed.

(* ================================================================== *)
(** * The unbound name in id_nan_columns *)
(* ================================================================== *)

Lemma id_nan_columns_raises columns len_df max_nans w :
  id_nan_columns columns len_df max_nans w = (Raise (NameError "colummns_wnan"), w).
Proof. reflexivity. Qed.

Lemma clean_nan_values_raises w :
  clean_nan_values w = (Raise (NameError "colummns_wnan"), w).
Proof. reflexivity. Qed.

(** C2: every call of [id_nan_columns] raises [NameError]: the name
    [colummns_wnan] that its loop reads is not a local of the function, is not
    bound in the module namespace and is not a builtin.  Hence every call of
    [clean_nan_values] raises the same [NameError] at the classification step,
    with the DataFrame untouched and nothing printed. *)
Theorem id_nan_columns_name_error :
  existsb (String.eqb "colummns_wnan") id_nan_columns_varnames = false
  /\ assoc module_globals "colummns_wnan" = None
  /\ existsb (String.eqb "colummns_wnan") builtin_names = false
  /\ (forall columns len_df max_nans w,
        id_nan_columns columns len_df max_nans w
        = (Raise (NameError "colummns_wnan"), w))
  /\ (forall w, clean_nan_values w = (Raise (NameError "colummns_wnan"), w)).
Proof.
  split; [reflexivity|]. split; [reflexivity|]. split; [reflexivity|]. split.
  - intros. apply id_nan_columns_raises.
  - intros. apply clean_nan_values_raises.
Qed.

(** Scenarios A and B of the specification, on the steps that can run: over
    the candidates of [hundred] the loop body sends [cabin] (70 of 100
    missing) to the replace list and [age] (3 of 100) to the drop list, and
    [drop_cols] on [age] leaves 97 rows; [clean_nan_values] itself raises. *)
Example scenario_a_b :
  columns_with_nan hundred = [ "age"; "cabin" ]
  /\ fst (classify_for [ "age"; "cabin" ] 100 default_max_nans ([], []) (fresh hundred))
     = Ok ([ "cabin" ], [ "age" ])
  /\ List.length (rows (frame (snd (drop_cols [ "age" ] 100 (fresh hundred))))) = 97%nat
  /\ fst (clean_nan_values (fresh hundred)) = Raise (NameError "colummns_wnan").
Proof. vm_compute. repeat split. Qed.

(** C1: on the table [passengers] with candidates [age] and [cabin], 4 rows
    and threshold 0.5, [id_nan_columns] returns no partition but raises
    [NameError]; the body of its loop, run over the candidates it was given,
    does produce the stable partition ([cabin] to replace, [age] to drop). *)
Theorem id_nan_columns_partition_fails :
  id_nan_columns [ "age"; "cabin" ] 4 0.5 (fresh passengers)
  = (Raise (NameError "colummns_wnan"), fresh passengers)
  /\ classify_for [ "age"; "cabin" ] 4 0.5 ([], []) (fresh passengers)
     = (Ok ([ "cabin" ], [ "age" ]), fresh passengers).
Proof. split; reflexivity. Qed.

(** C3: on the table [passengers], [clean_nan_values] computes the candidates
    [age] and [cabin] but returns no pair: the classification step raises
    [NameError], no row is dropped and nothing is printed. *)
Theorem clean_nan_values_fails :
  columns_with_nan passengers = [ "age"; "cabin" ]
  /\ clean_nan_values (fresh passengers)
     = (Raise (NameError "colummns_wnan"), fresh passengers).
Proof. split; reflexivity. Qed.

(** C8: with a row count of 0 and the default threshold the bound
    [len_df*max_nans] is 0 and the loop body sends [age] and [cabin], which
    have a missing value, to the replace list; the call of [id_nan_columns]
    itself routes nothing, it raises [NameError]. *)
Theorem id_nan_columns_zero_rows_fails :
  int_mul_float 0 default_max_nans = Ok 0%float
  /\ classify_for [ "age"; "cabin" ] 0 default_max_nans ([], []) (fresh passengers)
     = (Ok ([ "age"; "cabin" ], []), fresh passengers)
  /\ id_nan_columns [ "age"; "cabin" ] 0 default_max_nans (fresh passengers)
     = (Raise (NameError "colummns_wnan"), fresh passengers).
Proof. repeat split; reflexivity. Qed.

(* ================================================================== *)
(** * Properties of drop_cols *)
(* ================================================================== *)

(** C4: when [drop_cols] returns, every column of the list it was given holds
    no missing value in the returned table. *)
Theorem drop_cols_leaves_no_missing w cols len_df df' w' :
  wf_frame (frame w) = true ->
  drop_cols cols len_df w = (Ok df', w') ->
  forall c, In c cols -> exists col, getitem df' c = Ok col /\ isna_sum col = 0.
Proof.
  intros _ Hrun c Hc.
  destruct (drop_cols_ok_inv w cols len_df df' w' Hrun) as (Hincl & -> & ->).
  destruct (getitem_keep_complete (frame w) cols c (Hincl c Hc)) as (col & Hcol & Hsum).
  exists col. split; [assumption|]. rewrite Hsum. apply live_missing_zero. assumption.
Qed.

Lemma drop_cols_leaves_no_missing_witness :
  wf_frame overlapping = true
  /\ forall c, In c [ "a"; "b" ] ->
       exists col, getitem (keep_complete overlapping [ "a"; "b" ]) c = Ok col
                   /\ isna_sum col = 0.
Proof.
  split; [reflexivity|].
  apply (drop_cols_leaves_no_missing (fresh overlapping) [ "a"; "b" ] 10
           (keep_complete overlapping [ "a"; "b" ])
           (snd (drop_cols [ "a"; "b" ] 10 (fresh overlapping))));
    reflexivity.
Defined.

(** C5 (as amended): [drop_cols] on present columns, with a row count within
    the int64 bounds, prints exactly one line per column, in the order of the
    list and after the lines already there.  The line of the [i]-th column [c]
    reads [Dropped N rows due to nan values in c column, corresponding to a P%
    of the dataset length].  [N] is the number of missing values of [c] in the
    table as the earlier columns of the list have left it (the rows missing in
    [c] and in none of the earlier columns).  [P] is [round((N/len_df)*100, 3)]
    computed in binary64 in that order: [N] divided by the [len_df] that was
    passed in, the quotient times 100, then the product times 1000 rounded to
    the nearest integer and divided by 1000. *)
Theorem drop_cols_records w cols len_df :
  wf_frame (frame w) = true ->
  incl cols (columns (frame w)) ->
  int64_range len_df = true ->
  exists out,
    stdout (snd (drop_cols cols len_df w)) = stdout w ++ out
    /\ List.length out = List.length cols
    /\ forall i c, nth_error cols i = Some c ->
         exists col num_nan,
           getitem (frame (snd (drop_cols (firstn i cols) len_df w))) c = Ok col
           /\ num_nan = isna_sum col
           /\ num_nan = live_missing (frame w) (firstn i cols) c
           /\ nth_error out i =
              Some [ Lit "Dropped "; FInt num_nan; Lit " rows due to nan values in ";
                     FStr c; Lit " column, corresponding to a ";
                     FFloat (PrimFloat.div
                               (rint (PrimFloat.mul
                                        (PrimFloat.mul
                                           (PrimFloat.div (float_of_int num_nan)
                                                          (float_of_int len_df))
                                           (float_of_int 100))
                                        (float_of_int 1000)))
                               (float_of_int 1000));
                     Lit "% of the dataset length" ].
Proof.
  intros _ Hincl Hr. exists (dropped_lines (frame w) [] cols len_df).
  rewrite (drop_cols_present w cols len_df Hincl Hr). simpl.
  split; [reflexivity|]. split; [apply dropped_lines_length|].
  intros i c Hi.
  assert (incl (firstn i cols) (columns (frame w))) as Hpre.
  { intros x Hx. apply Hincl. apply (firstn_subseq_In i cols x Hx). }
  rewrite (drop_cols_present w (firstn i cols) len_df Hpre Hr). simpl.
  destruct (getitem_keep_complete (frame w) (firstn i cols) c
              (Hincl c (nth_error_In cols i Hi))) as (col & Hcol & Hsum).
  exists col, (live_missing (frame w) (firstn i cols) c).
  split; [assumption|]. split; [symmetry; assumption|]. split; [reflexivity|].
  rewrite (dropped_lines_nth (frame w) cols [] len_df i c Hi). reflexivity.
Qed.

Lemma drop_cols_records_witness :
  wf_frame overlapping = true
  /\ incl [ "a"; "b" ] (columns overlapping)
  /\ int64_range 10 = true
  /\ nth_error (stdout (snd (drop_cols [ "a"; "b" ] 10 (fresh overlapping)))) 0
     = Some [ Lit "Dropped "; FInt 5; Lit " rows due to nan values in "; FStr "a";
              Lit " column, corresponding to a "; FFloat 50;
              Lit "% of the dataset length" ]
  /\ nth_error (stdout (snd (drop_cols [ "a"; "b" ] 10 (fresh overlapping)))) 1
     = Some [ Lit "Dropped "; FInt 1; Lit " rows due to nan values in "; FStr "b";
              Lit " column, corresponding to a "; FFloat 10;
              Lit "% of the dataset length" ].
Proof.
  split; [reflexivity|].
  assert (incl [ "a"; "b" ] (columns overlapping)) as Hincl
    by (intros c Hc; exact Hc).
  split; [exact Hincl|]. split; [reflexivity|].
  destruct (drop_cols_records (fresh overlapping) [ "a"; "b" ] 10 eq_refl Hincl eq_refl)
    as (out & Hout & _ & Hnth).
  rewrite Hout.
  destruct (Hnth 0%nat "a" eq_refl) as (cola & na & _ & _ & Hlivea & Hlinea).
  destruct (Hnth 1%nat "b" eq_refl) as (colb & nb & _ & _ & Hliveb & Hlineb).
  rewrite Hlivea in Hlinea. rewrite Hliveb in Hlineb.
  split; [exact Hlinea | exact Hlineb].
Defined.

(** C5 (as stated) fails on the table [sparse], 8000 rows of which 11 are
    missing in [fare].  [drop_cols] prints the percentage 0.137: in binary64
    [(11/8000)*100] is 0.13749999999999998, below the tie.  The formula
    [round(100 * N / len_df, 3)] gives 0.138: [100*11/8000] is
    0.13750000000000001 in binary64, and in exact arithmetic 1000 times the
    quotient is the tie 137.5, whose neighbours are 137 and 138. *)
Lemma percentage_is_not_the_formula :
  stdout (snd (drop_cols [ "fare" ] 8000 (fresh sparse)))
  = [ [ Lit "Dropped "; FInt 11; Lit " rows due to nan values in "; FStr "fare";
        Lit " column, corresponding to a "; FFloat (137 / 1000);
        Lit "% of the dataset length" ] ]
  /\ percent_by_formula 11 8000 = (138 / 1000)%float
  /\ PrimFloat.eqb (137 / 1000) (138 / 1000) = false
  /\ 2 * (100 * 11 * 1000) = (137 + 138) * 8000.
Proof. vm_compute. repeat split. Qed.

(** C7: let the classifier's loop split candidate columns into replace and
    drop candidates and let [drop_cols] run on the drop candidates.  No
    replace candidate is among the columns [drop_cols] works on, and a row of
    the table survives exactly when it is missing in none of the drop
    candidates: what a row holds in a replace candidate plays no part. *)
Theorem replace_columns_do_not_remove_rows
    w items len_df max_nans repl drops w1 df' w' :
  wf_frame (frame w) = true ->
  classify_for items len_df max_nans ([], []) w = (Ok (repl, drops), w1) ->
  drop_cols drops len_df w1 = (Ok df', w') ->
  (forall c, In c repl -> ~ In c drops)
  /\ forall r, In r (rows (frame w)) ->
       (In r (rows df') <-> forall c, In c drops -> isna_at (columns (frame w)) r c = false).
Proof.
  intros _ Hcls Hrun.
  destruct (classify_for_inv items len_df max_nans [] [] w repl drops w1 Hcls)
    as (-> & p & -> & ->).
  simpl in *. split.
  - intros c Hr Hd. apply filter_In in Hr. apply filter_In in Hd.
    destruct Hr as [_ Hr]. destruct Hd as [_ Hd]. rewrite Hr in Hd. discriminate.
  - intros r Hr.
    destruct (drop_cols_ok_inv w _ len_df df' w' Hrun) as (Hincl & -> & ->).
    rewrite keep_complete_rows_In. tauto.
Qed.

Lemma replace_columns_do_not_remove_rows_witness :
  wf_frame relapse = true
  /\ isna_at (columns relapse) (mkRow 1 [ CInt 7; CFloat nan ]) "r" = true
  /\ In (mkRow 1 [ CInt 7; CFloat nan ]) (rows (frame relapse_once)).
Proof.
  split; [reflexivity|]. split; [reflexivity|].
  apply (proj2 (replace_columns_do_not_remove_rows
                  (fresh relapse) [ "d"; "r" ] 22 default_max_nans [ "r" ] [ "d" ]
                  (fresh relapse) (frame relapse_once) relapse_once
                  eq_refl eq_refl eq_refl)).
  - right. left. reflexivity.
  - intros c [<-|[]]. reflexivity.
Defined.

(** C9: for a row count within the int64 bounds, [drop_cols] returns when
    every column of its list is in the table.  When some column is not, it
    raises [KeyError] for the first such column [c]: the columns before [c]
    have been processed, [c] and the columns after it have not, and the
    exception reaches the caller. *)
Theorem drop_cols_key_error w cols len_df :
  wf_frame (frame w) = true ->
  int64_range len_df = true ->
  (incl cols (columns (frame w)) ->
     exists df' w', drop_cols cols len_df w = (Ok df', w'))
  /\ ((exists x, In x cols /\ ~ In x (columns (frame w))) ->
      exists pre c post,
        cols = pre ++ c :: post
        /\ incl pre (columns (frame w))
        /\ ~ In c (columns (frame w))
        /\ drop_cols cols len_df w
           = (Raise (KeyError c), snd (drop_cols pre len_df w))).
Proof.
  intros _ Hr. split.
  - intros Hincl. rewrite (drop_cols_present w cols len_df Hincl Hr). eauto.
  - intros (x & Hx & Hn).
    destruct (first_absent (columns (frame w)) cols)
      as [Hincl|(pre & c & post & -> & Hpre & Hc)].
    + exfalso. apply Hn, Hincl, Hx.
    + exists pre, c, post. repeat split; try assumption.
      rewrite (drop_cols_raises w pre c post len_df Hpre Hc (or_intror Hr)).
      rewrite (drop_cols_present w pre len_df Hpre Hr). reflexivity.
Qed.

Lemma drop_cols_key_error_witness :
  wf_frame overlapping = true
  /\ int64_range 10 = true
  /\ (exists df' w', drop_cols [ "a"; "b" ] 10 (fresh overlapping) = (Ok df', w'))
  /\ exists pre c post,
       [ "a"; "zz"; "b" ] = pre ++ c :: post
       /\ incl pre (columns overlapping)
       /\ ~ In c (columns overlapping)
       /\ drop_cols [ "a"; "zz"; "b" ] 10 (fresh overlapping)
          = (Raise (KeyError c), snd (drop_cols pre 10 (fresh overlapping))).
Proof.
  split; [reflexivity|]. split; [reflexivity|]. split.
  - apply (proj1 (drop_cols_key_error (fresh overlapping) [ "a"; "b" ] 10 eq_refl eq_refl)).
    intros c Hc. exact Hc.
  - apply (proj2 (drop_cols_key_error (fresh overlapping) [ "a"; "zz"; "b" ] 10
                    eq_refl eq_refl)).
    exists "zz". split.
    + right. left. reflexivity.
    + intros [H|[H|[]]]; discriminate.
Defined.

(** C10: when [drop_cols] returns, the table it returns is the caller's
    object as it now stands; its column labels are those of the input, in the
    same order; its rows are rows of the input (index label and cells
    unchanged) in their original relative order; and it is well formed.  With
    an empty list the table and the output are left as they were. *)
Theorem drop_cols_only_removes_rows w cols len_df df' w' :
  wf_frame (frame w) = true ->
  drop_cols cols len_df w = (Ok df', w') ->
  frame w' = df'
  /\ columns df' = columns (frame w)
  /\ subseq (rows df') (rows (frame w))
  /\ wf_frame df' = true
  /\ (cols = [] -> df' = frame w /\ w' = w).
Proof.
  intros Hwf Hrun.
  destruct (drop_cols_ok_inv w cols len_df df' w' Hrun) as (Hincl & -> & ->).
  split; [reflexivity|]. split; [reflexivity|].
  split; [apply filter_subseq|]. split; [apply wf_keep_complete; assumption|].
  intros ->. simpl. rewrite keep_complete_nil, app_nil_r.
  split; [reflexivity | destruct w; reflexivity].
Qed.

Lemma drop_cols_only_removes_rows_witness :
  wf_frame overlapping = true
  /\ columns (keep_complete overlapping [ "a"; "b" ]) = [ "a"; "b" ]
  /\ subseq (rows (keep_complete overlapping [ "a"; "b" ])) (rows overlapping).
Proof.
  split; [reflexivity|].
  destruct (drop_cols_only_removes_rows (fresh overlapping) [ "a"; "b" ] 10
              (keep_complete overlapping [ "a"; "b" ])
              (snd (drop_cols [ "a"; "b" ] 10 (fresh overlapping)))
              eq_refl eq_refl) as (_ & Hcols & Hrows & _).
  split; [exact Hcols | exact Hrows].
Defined.

(* ================================================================== *)
(** * Running the cleaning again *)
(* ================================================================== *)

Lemma keep_complete_idem df cs :
  keep_complete (keep_complete df cs) cs = keep_complete df cs.
Proof.
  unfold keep_complete. simpl. f_equal.
  apply filter_all. intros r Hr. apply filter_In in Hr. tauto.
Qed.

(** In a table whose rows are complete in [cs], the lines for columns of
    [cs] all report 0 rows. *)
Lemma dropped_lines_zero df cs cols : forall done len_df,
  (forall r, In r (rows df) -> complete_in (columns df) cs r = true) ->
  incl cols cs ->
  dropped_lines df done cols len_df = map (fun c => dropped_line 0 c len_df) cols.
Proof.
  induction cols as [|c cols IH]; intros done len_df Hall Hincl; simpl; [reflexivity|].
  rewrite IH; auto.
  - f_equal. f_equal. unfold live_missing. rewrite filter_none; [reflexivity|].
    intros r Hr. apply andb_false_iff. right.
    apply (proj1 (complete_in_spec _ _ _) (Hall r Hr)). apply Hincl. left. reflexivity.
  - intros x Hx. apply Hincl. right. assumption.
Qed.

(** X14: [drop_cols] run a second time on the same list, with any row count
    within the int64 bounds, removes nothing more: it returns the table the
    first run returned and prints one line per column, each reporting 0
    rows. *)
Theorem drop_cols_idempotent w cols len_df len_df' df' w' :
  wf_frame (frame w) = true ->
  drop_cols cols len_df w = (Ok df', w') ->
  int64_range len_df' = true ->
  exists out,
    drop_cols cols len_df' w' = (Ok df', mkWorld df' (stdout w' ++ out))
    /\ List.length out = List.length cols
    /\ forall line, In line out -> reported line = 0.
Proof.
  intros _ Hrun Hr'.
  destruct (drop_cols_ok_inv w cols len_df df' w' Hrun) as (Hincl & -> & ->).
  exists (map (fun c => dropped_line 0 c len_df') cols).
  split; [|split].
  - rewrite (drop_cols_present
               (mkWorld (keep_complete (frame w) cols)
                        (stdout w ++ dropped_lines (frame w) [] cols len_df))
               cols len_df' Hincl Hr').
    simpl frame. simpl stdout.
    rewrite keep_complete_idem.
    rewrite (dropped_lines_zero (keep_complete (frame w) cols) cols cols [] len_df').
    + reflexivity.
    + intros r Hr. simpl in Hr. apply filter_In in Hr. tauto.
    + intros x Hx. exact Hx.
  - apply length_map.
  - intros line Hin. apply in_map_iff in Hin. destruct Hin as (c & <- & _).
    reflexivity.
Qed.

Lemma drop_cols_idempotent_witness :
  wf_frame relapse = true
  /\ int64_range 21 = true
  /\ exists out,
       drop_cols [ "d" ] 21 relapse_once
       = (Ok (frame relapse_once),
          mkWorld (frame relapse_once) (stdout relapse_once ++ out))
       /\ List.length out = 1%nat.
Proof.
  split; [reflexivity|]. split; [reflexivity|].
  destruct (drop_cols_idempotent (fresh relapse) [ "d" ] 22 21
              (frame relapse_once) relapse_once eq_refl eq_refl eq_refl)
    as (out & Hagain & Hlen & _).
  exists out. split; [exact Hagain | exact Hlen].
Defined.

(** C6: on the table [relapse], which has missing values in [d] and [r], a
    first run of [clean_nan_values] returns no cleaned table: it raises
    [NameError] and leaves the table as it was, and a second run on what the
    first run left does the same.  No run ever classifies or drops. *)
Theorem clean_nan_values_rerun_fails :
  clean_nan_values (fresh relapse)
  = (Raise (NameError "colummns_wnan"), fresh relapse)
  /\ columns_with_nan (frame (snd (clean_nan_values (fresh relapse)))) = [ "d"; "r" ]
  /\ clean_nan_values (snd (clean_nan_values (fresh relapse)))
     = (Raise (NameError "colummns_wnan"), fresh relapse).
Proof. repeat split. Qed.

(* ================================================================== *)
(** * Further facts about lists *)
(* ================================================================== *)

Lemma filter_length_pos {A : Type} (p : A -> bool) (l : list A) :
  (0 < List.length (filter p l))%nat <-> exists x, In x l /\ p x = true.
Proof.
  induction l as [|x l IH]; simpl.
  - split; [lia | intros (x & [] & _)].
  - destruct (p x) eqn:E; simpl.
    + split; [intros _; exists x; auto | lia].
    + rewrite IH. split.
      * intros (y & Hy & Hp). exists y. auto.
      * intros (y & [<-|Hy] & Hp); [congruence | exists y; auto].
Qed.

Lemma filter_length_split {A : Type} (p q : A -> bool) (l : list A) :
  List.length (filter p l)
  = (List.length (filter (fun x => p x && q x) l)
     + List.length (filter (fun x => p x && negb (q x)) l))%nat.
Proof.
  induction l as [|x l IH]; simpl; [reflexivity|].
  destruct (p x), (q x); simpl; lia.
Qed.

Lemma filter_length_bound {A : Type} (p : A -> bool) (l : list A) :
  (List.length (filter p l) <= List.length l)%nat.
Proof.
  induction l as [|x l IH]; simpl; [lia|]. destruct (p x); simpl; lia.
Qed.

Lemma filter_fixed {A : Type} (p : A -> bool) (l : list A) :
  filter p l = l -> forall x, In x l -> p x = true.
Proof.
  induction l as [|y l IH]; simpl; intros E x Hx; [contradiction|].
  destruct (p y) eqn:Ey.
  - injection E as E. destruct Hx as [<-|Hx]; auto.
  - exfalso. pose proof (filter_length_bound p l) as Hle.
    rewrite E in Hle. simpl in Hle. lia.
Qed.

Lemma subseq_nil_l {A : Type} (l : list A) : subseq [] l.
Proof. induction l; constructor; assumption. Qed.

Lemma mask_select_subseq {A : Type} (xs : list A) : forall mask,
  subseq (mask_select xs mask) xs.
Proof.
  induction xs as [|x xs IH]; intros [|b mask]; simpl;
    try apply subseq_nil_l.
  destruct b; constructor; apply IH.
Qed.

Lemma live_missing_pos df c :
  0 < live_missing df [] c
  <-> exists r, In r (rows df) /\ isna_at (columns df) r c = true.
Proof.
  unfold live_missing. rewrite <- Nat2Z.inj_0, <- Nat2Z.inj_lt, filter_length_pos.
  simpl. reflexivity.
Qed.

(* ================================================================== *)
(** * The candidate list of clean_nan_values *)
(* ================================================================== *)

(** X1: the list [df.columns[df.isna().any()].tolist()] that
    [clean_nan_values] builds holds exactly the columns of the table whose
    count of missing values is positive, in the order of the table's columns;
    for a table without rows it is empty. *)
Theorem candidates_are_columns_with_missing df :
  wf_frame df = true ->
  (forall c, In c (columns_with_nan df)
             <-> exists col, getitem df c = Ok col /\ 0 < isna_sum col)
  /\ subseq (columns_with_nan df) (columns df)
  /\ (rows df = [] -> columns_with_nan df = []).
Proof.
  intros Hwf.
  assert (forall c, In c (columns_with_nan df)
                    <-> exists col, getitem df c = Ok col /\ 0 < isna_sum col) as Hiff.
  { intros c. rewrite (columns_with_nan_spec df c Hwf). split.
    - intros (r & Hr & Hna).
      assert (In c (columns df)) as Hin.
      { unfold isna_at in Hna. destruct (get_loc (columns df) c) eqn:E; [|discriminate].
        apply get_loc_nth, nth_error_In in E. assumption. }
      destruct (getitem_isna_sum df c Hin) as (col & Hcol & Hsum).
      exists col. split; [assumption|]. rewrite Hsum. apply live_missing_pos. eauto.
    - intros (col & Hcol & Hpos).
      destruct (getitem_isna_sum df c (getitem_ok_In df c col Hcol)) as (col' & Hcol' & Hsum).
      rewrite Hcol in Hcol'. injection Hcol' as <-.
      rewrite Hsum in Hpos. apply live_missing_pos. assumption. }
  split; [exact Hiff|]. split; [apply mask_select_subseq|].
  intros Hrows.
  destruct (columns_with_nan df) as [|c l] eqn:E; [reflexivity|].
  exfalso. assert (In c (columns_with_nan df)) as Hc by (rewrite E; left; reflexivity).
  apply (columns_with_nan_spec df c Hwf) in Hc. destruct Hc as (r & Hr & _).
  rewrite Hrows in Hr. contradiction.
Qed.

Lemma candidates_are_columns_with_missing_witness :
  wf_frame passengers = true
  /\ subseq (columns_with_nan passengers) [ "name"; "age"; "cabin" ]
  /\ ~ In "name" (columns_with_nan passengers).
Proof.
  split; [reflexivity|].
  destruct (candidates_are_columns_with_missing passengers eq_refl) as (Hiff & Hsub & _).
  split; [exact Hsub|].
  intros Hin. apply Hiff in Hin. destruct Hin as (col & Hcol & Hpos).
  injection Hcol as <-. discriminate Hpos.
Defined.

(* ================================================================== *)
(** * The loop of id_nan_columns *)
(* ================================================================== *)

Lemma filter_length_partition {A : Type} (p : A -> bool) (l : list A) :
  (List.length (filter p l) + List.length (filter (fun x => negb (p x)) l)
   = List.length l)%nat.
Proof.
  induction l as [|x l IH]; simpl; [reflexivity|].
  destruct (p x); simpl; lia.
Qed.

(** X2: the loop of [id_nan_columns], run over items that are all columns of
    the table and with a row count that converts to a float, returns without
    touching the table or the output.  An item lands in the first list
    exactly when its count of missing values is greater than
    [len_df*max_nans] and in the second list otherwise; both lists keep the
    order of the items, repeated items included, and together they have as
    many entries as there are items. *)
Theorem classifier_loop_stable_partition w items len_df max_nans bound :
  wf_frame (frame w) = true ->
  incl items (columns (frame w)) ->
  int_mul_float len_df max_nans = Ok bound ->
  exists repl drops,
    classify_for items len_df max_nans ([], []) w = (Ok (repl, drops), w)
    /\ subseq repl items /\ subseq drops items
    /\ (List.length repl + List.length drops = List.length items)%nat
    /\ forall c col, In c items -> getitem (frame w) c = Ok col ->
         (In c repl <-> int64_gt_float (isna_sum col) bound = true)
         /\ (In c drops <-> int64_gt_float (isna_sum col) bound = false).
Proof.
  intros _ Hincl Hb.
  exists (filter (exceeds (frame w) bound) items),
         (filter (fun c => negb (exceeds (frame w) bound c)) items).
  split; [exact (classify_for_present items len_df max_nans bound [] [] w Hincl Hb)|].
  split; [apply filter_subseq|]. split; [apply filter_subseq|].
  split.
  - apply filter_length_partition.
  - intros c col Hc Hcol.
    destruct (getitem_isna_sum (frame w) c (Hincl c Hc)) as (col' & Hcol' & Hsum).
    rewrite Hcol in Hcol'. injection Hcol' as <-.
    rewrite !filter_In. unfold exceeds. rewrite <- Hsum.
    rewrite negb_true_iff. tauto.
Qed.

Lemma classifier_loop_stable_partition_witness :
  wf_frame hundred = true
  /\ incl [ "age"; "cabin"; "age" ] (columns hundred)
  /\ exists repl drops,
       classify_for [ "age"; "cabin"; "age" ] 100 default_max_nans ([], []) (fresh hundred)
       = (Ok (repl, drops), fresh hundred)
       /\ (List.length repl + List.length drops = 3)%nat.
Proof.
  split; [reflexivity|].
  assert (incl [ "age"; "cabin"; "age" ] (columns hundred)) as Hincl
    by (intros c Hc; simpl in *; tauto).
  split; [exact Hincl|].
  destruct (classifier_loop_stable_partition (fresh hundred) [ "age"; "cabin"; "age" ]
              100 default_max_nans _ eq_refl Hincl eq_refl)
    as (repl & drops & Hrun & _ & _ & Hlen & _).
  exists repl, drops. split; [exact Hrun | exact Hlen].
Defined.

(** X3: the loop of [id_nan_columns], run over items of which some is not a
    column of the table, raises [KeyError] for the first such item, whatever
    the threshold; the table and the output are as they were.  (When items
    come before it, the row count must convert to a float for the loop to get
    that far.) *)
Theorem classifier_loop_key_error w pre c post len_df max_nans bound acc :
  wf_frame (frame w) = true ->
  incl pre (columns (frame w)) ->
  ~ In c (columns (frame w)) ->
  (pre = [] \/ int_mul_float len_df max_nans = Ok bound) ->
  classify_for (pre ++ c :: post) len_df max_nans acc w = (Raise (KeyError c), w).
Proof.
  intros _ Hpre Hc Hb. revert acc.
  induction pre as [|p ps IH]; intros [repl drops].
  - simpl. unfold bind, get_frame, lift, getitem.
    apply get_loc_None in Hc. rewrite Hc. reflexivity.
  - destruct Hb as [Hb|Hb]; [discriminate|].
    destruct (getitem_isna_sum (frame w) p (Hpre p (or_introl eq_refl)))
      as (col & Hcol & _).
    simpl. unfold bind, get_frame, lift. rewrite Hcol, Hb.
    assert (incl ps (columns (frame w))) as Hps
      by (intros x Hx; apply Hpre; right; assumption).
    destruct (int64_gt_float (isna_sum col) bound); apply IH; auto.
Qed.

Lemma classifier_loop_key_error_witness :
  wf_frame passengers = true
  /\ classify_for [ "age"; "fare"; "cabin" ] 4 default_max_nans ([], []) (fresh passengers)
     = (Raise (KeyError "fare"), fresh passengers).
Proof.
  split; [reflexivity|].
  apply (classifier_loop_key_error (fresh passengers) [ "age" ] "fare" [ "cabin" ]
           4 default_max_nans (PrimFloat.mul (float_of_int 4) default_max_nans)
           ([], []) eq_refl).
  - intros c [<-|[]]. simpl. tauto.
  - simpl. intros [H|[H|[H|[]]]]; discriminate.
  - right. reflexivity.
Defined.

(* ================================================================== *)
(** * More on drop_cols *)
(* ================================================================== *)

Lemma drop_cols_for_app cs1 cs2 len_df : forall w,
  drop_cols_for (cs1 ++ cs2) len_df w
  = (_ <- drop_cols_for cs1 len_df ;; drop_cols_for cs2 len_df) w.
Proof.
  induction cs1 as [|c cs IH]; intros w; [reflexivity|].
  simpl. unfold bind, get_frame, lift, print, dropna. simpl.
  destruct (getitem (frame w) c) as [col|e]; [|reflexivity].
  destruct (fstring_dropped (isna_sum col) c len_df) as [line|e]; [|reflexivity].
  destruct (get_loc (columns (frame w)) c) as [i|]; [|reflexivity].
  rewrite IH. reflexivity.
Qed.

(** X4: [drop_cols] on a list [cs1 ++ cs2] does what [drop_cols] on [cs1]
    followed by [drop_cols] on [cs2] does, with the same row count passed to
    both: the same table, the same lines, the same result; when the first
    part raises, the second part is not run. *)
Theorem drop_cols_app cs1 cs2 len_df w :
  drop_cols (cs1 ++ cs2) len_df w
  = match drop_cols cs1 len_df w with
    | (Ok _, w1) => drop_cols cs2 len_df w1
    | (Raise e, w1) => (Raise e, w1)
    end.
Proof.
  unfold drop_cols, bind. rewrite drop_cols_for_app. unfold bind.
  destruct (drop_cols_for cs1 len_df w) as [[[]|e] w1]; reflexivity.
Qed.

Lemma keep_complete_same_columns df cs cs' :
  (forall c, In c cs <-> In c cs') -> keep_complete df cs = keep_complete df cs'.
Proof.
  intros Hsame. unfold keep_complete. f_equal. apply filter_ext. intros r.
  apply eq_true_iff_eq. rewrite !complete_in_spec.
  split; intros H c Hc; apply H, Hsame, Hc.
Qed.

(** X5: the table [drop_cols] returns depends only on which columns are in
    its list: two lists of present columns with the same members, in any
    order and with any repetitions, and any two row counts within the int64
    bounds, give the same table. *)
Theorem drop_cols_table_ignores_order w cols cols' len_df len_df' :
  wf_frame (frame w) = true ->
  incl cols (columns (frame w)) ->
  (forall c, In c cols <-> In c cols') ->
  int64_range len_df = true ->
  int64_range len_df' = true ->
  fst (drop_cols cols len_df w) = fst (drop_cols cols' len_df' w)
  /\ frame (snd (drop_cols cols len_df w)) = frame (snd (drop_cols cols' len_df' w)).
Proof.
  intros _ Hincl Hsame Hr Hr'.
  assert (incl cols' (columns (frame w))) as Hincl'
    by (intros c Hc; apply Hincl, Hsame, Hc).
  rewrite (drop_cols_present w cols len_df Hincl Hr).
  rewrite (drop_cols_present w cols' len_df' Hincl' Hr'). simpl.
  rewrite (keep_complete_same_columns (frame w) cols cols' Hsame). auto.
Qed.

Lemma drop_cols_table_ignores_order_witness :
  wf_frame overlapping = true
  /\ incl [ "a"; "b" ] (columns overlapping)
  /\ int64_range 10 = true /\ int64_range 7 = true
  /\ frame (snd (drop_cols [ "a"; "b" ] 10 (fresh overlapping)))
     = frame (snd (drop_cols [ "b"; "a"; "b" ] 7 (fresh overlapping))).
Proof.
  split; [reflexivity|].
  assert (incl [ "a"; "b" ] (columns overlapping)) as Hincl
    by (intros c Hc; exact Hc).
  split; [exact Hincl|]. split; [reflexivity|]. split; [reflexivity|].
  assert (forall c, In c [ "a"; "b" ] <-> In c [ "b"; "a"; "b" ]) as Hsame
    by (intros c; simpl; tauto).
  apply (proj2 (drop_cols_table_ignores_order (fresh overlapping) [ "a"; "b" ]
                  [ "b"; "a"; "b" ] 10 7 eq_refl Hincl Hsame eq_refl eq_refl)).
Defined.

Lemma reported_dropped_line n c len_df : reported (dropped_line n c len_df) = n.
Proof. simpl. lia. Qed.

Lemma live_missing_step df done c :
  (List.length (filter (complete_in (columns df) done) (rows df))
   = Z.to_nat (live_missing df done c)
     + List.length (filter (complete_in (columns df) (done ++ [c])) (rows df)))%nat.
Proof.
  unfold live_missing. rewrite Nat2Z.id.
  rewrite (filter_length_split (complete_in (columns df) done)
             (fun r => isna_at (columns df) r c) (rows df)).
  f_equal. f_equal. apply filter_ext. intros r.
  rewrite complete_in_app. unfold complete_in at 3. simpl.
  rewrite andb_true_r. reflexivity.
Qed.

Lemma live_missing_nonneg df done c : 0 <= live_missing df done c.
Proof. unfold live_missing. lia. Qed.

Lemma dropped_lines_total df cols : forall done len_df,
  Z.of_nat (List.length (filter (complete_in (columns df) done) (rows df)))
  = total (map reported (dropped_lines df done cols len_df))
    + Z.of_nat (List.length (filter (complete_in (columns df) (done ++ cols)) (rows df))).
Proof.
  induction cols as [|c cs IH]; intros done len_df.
  - simpl. rewrite app_nil_r. reflexivity.
  - unfold total in *. cbn [dropped_lines map fold_right].
    rewrite reported_dropped_line.
    pose proof (live_missing_step df done c) as Hstep.
    pose proof (live_missing_nonneg df done c) as Hnn.
    specialize (IH (done ++ [c]) len_df).
    rewrite <- app_assoc in IH. simpl in IH. lia.
Qed.

(** X6: the row counts [drop_cols] prints add up: on present columns, the
    number of rows of the table before the call is the number of rows of the
    returned table plus the sum of the counts in the lines the call printed.
    In particular the table never grows. *)
Theorem drop_cols_counts_add_up w cols len_df df' w' :
  wf_frame (frame w) = true ->
  drop_cols cols len_df w = (Ok df', w') ->
  exists out,
    stdout w' = stdout w ++ out
    /\ Z.of_nat (List.length (rows (frame w)))
       = Z.of_nat (List.length (rows df')) + total (map reported out)
    /\ (List.length (rows df') <= List.length (rows (frame w)))%nat.
Proof.
  intros _ Hrun.
  destruct (drop_cols_ok_inv w cols len_df df' w' Hrun) as (Hincl & -> & ->).
  exists (dropped_lines (frame w) [] cols len_df). split; [reflexivity|].
  pose proof (dropped_lines_total (frame w) cols [] len_df) as Htot.
  rewrite (filter_all (complete_in (columns (frame w)) []) (rows (frame w)))
    in Htot by reflexivity.
  simpl in *. split; [lia | apply filter_length_bound].
Qed.

Lemma drop_cols_counts_add_up_witness :
  wf_frame overlapping = true
  /\ exists out,
       stdout (snd (drop_cols [ "a"; "b" ] 10 (fresh overlapping))) = [] ++ out
       /\ 10 = 4 + total (map reported out).
Proof.
  split; [reflexivity|].
  destruct (drop_cols_counts_add_up (fresh overlapping) [ "a"; "b" ] 10
              (keep_complete overlapping [ "a"; "b" ])
              (snd (drop_cols [ "a"; "b" ] 10 (fresh overlapping)))
              eq_refl eq_refl) as (out & Hout & Hsum & _).
  exists out. split; [exact Hout | exact Hsum].
Defined.

(** X7: [drop_cols] returns the table as it was exactly when none of the
    columns in its list has a missing value. *)
Theorem drop_cols_unchanged_iff w cols len_df df' w' :
  wf_frame (frame w) = true ->
  drop_cols cols len_df w = (Ok df', w') ->
  (df' = frame w <-> forall c, In c cols -> ~ In c (columns_with_nan (frame w))).
Proof.
  intros Hwf Hrun.
  destruct (drop_cols_ok_inv w cols len_df df' w' Hrun) as (Hincl & -> & ->).
  split.
  - intros E c Hc Hcand.
    apply (columns_with_nan_spec (frame w) c Hwf) in Hcand.
    destruct Hcand as (r & Hr & Hna).
    assert (filter (complete_in (columns (frame w)) cols) (rows (frame w))
            = rows (frame w)) as Efix by (rewrite <- E at 3; reflexivity).
    pose proof (filter_fixed _ _ Efix r Hr) as Hcomplete.
    rewrite (proj1 (complete_in_spec _ _ _) Hcomplete c Hc) in Hna. discriminate.
  - intros Hnone. destruct (frame w) as [names rs] eqn:Ew. unfold keep_complete. simpl.
    f_equal. apply filter_all. intros r Hr. apply complete_in_spec. intros c Hc.
    destruct (isna_at names r c) eqn:Hna; [|reflexivity].
    exfalso. apply (Hnone c Hc).
    apply (columns_with_nan_spec (mkFrame names rs) c Hwf). exists r. auto.
Qed.

Lemma drop_cols_unchanged_iff_witness :
  wf_frame passengers = true
  /\ fst (drop_cols [ "name" ] 4 (fresh passengers)) = Ok passengers.
Proof.
  split; [reflexivity|].
  assert (keep_complete passengers [ "name" ] = passengers) as E.
  { apply (proj2 (drop_cols_unchanged_iff (fresh passengers) [ "name" ] 4
                    (keep_complete passengers [ "name" ])
                    (snd (drop_cols [ "name" ] 4 (fresh passengers)))
                    eq_refl eq_refl)).
    intros c [<-|[]] [H|[H|[]]]; discriminate. }
  rewrite <- E at 2. reflexivity.
Defined.

(** X8: dropping rows makes no new candidates: a column with a missing value
    in the table [drop_cols] returns had one before the call and is not in
    the list [drop_cols] was given. *)
Theorem drop_cols_candidates_shrink w cols len_df df' w' :
  wf_frame (frame w) = true ->
  drop_cols cols len_df w = (Ok df', w') ->
  forall c, In c (columns_with_nan df') ->
            In c (columns_with_nan (frame w)) /\ ~ In c cols.
Proof.
  intros Hwf Hrun c Hcand.
  destruct (drop_cols_ok_inv w cols len_df df' w' Hrun) as (Hincl & -> & ->).
  apply (columns_with_nan_spec _ c (wf_keep_complete _ cols Hwf)) in Hcand.
  destruct Hcand as (r & Hr & Hna). apply keep_complete_rows_In in Hr.
  destruct Hr as [Hr Hcomplete]. simpl in Hna. split.
  - apply (columns_with_nan_spec (frame w) c Hwf). eauto.
  - intros Hc. rewrite (Hcomplete c Hc) in Hna. discriminate.
Qed.

Lemma drop_cols_candidates_shrink_witness :
  wf_frame relapse = true
  /\ forall c, In c (columns_with_nan (frame relapse_once)) ->
               In c (columns_with_nan relapse) /\ ~ In c [ "d" ].
Proof.
  split; [reflexivity|].
  apply (drop_cols_candidates_shrink (fresh relapse) [ "d" ] 22
           (frame relapse_once) relapse_once eq_refl eq_refl).
Defined.

Lemma filter_length_mono {A : Type} (p q : A -> bool) (l : list A) :
  (forall x, p x = true -> q x = true) ->
  (List.length (filter p l) <= List.length (filter q l))%nat.
Proof.
  intros Himp. induction l as [|x l IH]; simpl; [lia|].
  destruct (p x) eqn:Ep.
  - rewrite (Himp x Ep). simpl. lia.
  - destruct (q x); simpl; lia.
Qed.

Lemma live_missing_le df done c : live_missing df done c <= live_missing df [] c.
Proof.
  unfold live_missing. apply Nat2Z.inj_le. apply filter_length_mono.
  intros r H. apply andb_true_iff in H. simpl. tauto.
Qed.

(** X9: with present columns and a row count within the int64 bounds, the
    count [drop_cols] prints for a column is never negative and never more
    than the column's count of missing values in the table before the call;
    for the first column of the list it is that count, and for a column that
    already occurred earlier in the list it is 0. *)
Theorem drop_cols_reported_counts w cols len_df :
  wf_frame (frame w) = true ->
  incl cols (columns (frame w)) ->
  int64_range len_df = true ->
  exists out,
    stdout (snd (drop_cols cols len_df w)) = stdout w ++ out
    /\ forall i c, nth_error cols i = Some c ->
         exists line col,
           nth_error out i = Some line
           /\ getitem (frame w) c = Ok col
           /\ 0 <= reported line <= isna_sum col
           /\ (i = 0%nat -> reported line = isna_sum col)
           /\ (In c (firstn i cols) -> reported line = 0).
Proof.
  intros _ Hincl Hr. exists (dropped_lines (frame w) [] cols len_df).
  rewrite (drop_cols_present w cols len_df Hincl Hr). simpl.
  split; [reflexivity|]. intros i c Hi.
  destruct (getitem_isna_sum (frame w) c (Hincl c (nth_error_In cols i Hi)))
    as (col & Hcol & Hsum).
  exists (dropped_line (live_missing (frame w) (firstn i cols) c) c len_df), col.
  split; [exact (dropped_lines_nth (frame w) cols [] len_df i c Hi)|].
  split; [assumption|]. rewrite reported_dropped_line, Hsum.
  split; [split; [apply live_missing_nonneg | apply live_missing_le]|].
  split.
  - intros ->. reflexivity.
  - apply live_missing_zero.
Qed.

Lemma drop_cols_reported_counts_witness :
  wf_frame overlapping = true
  /\ incl [ "b"; "a"; "b" ] (columns overlapping)
  /\ int64_range 10 = true
  /\ exists out,
       stdout (snd (drop_cols [ "b"; "a"; "b" ] 10 (fresh overlapping))) = [] ++ out
       /\ exists line, nth_error out 2 = Some line /\ reported line = 0.
Proof.
  split; [reflexivity|].
  assert (incl [ "b"; "a"; "b" ] (columns overlapping)) as Hincl
    by (intros c Hc; simpl in *; tauto).
  split; [exact Hincl|]. split; [reflexivity|].
  destruct (drop_cols_reported_counts (fresh overlapping) [ "b"; "a"; "b" ] 10
              eq_refl Hincl eq_refl) as (out & Hout & Hnth).
  exists out. split; [exact Hout|].
  destruct (Hnth 2%nat "b" eq_refl) as (line & col & Hline & _ & _ & _ & Hzero).
  exists line. split; [exact Hline|]. apply Hzero. left. reflexivity.
Defined.

(** X10: a failing [drop_cols] does not undo what it has done.  When the
    list holds, after present columns [pre], a column [c] the table does not
    have, and the row count is within the int64 bounds (or [pre] is empty),
    the call raises [KeyError] for [c] and leaves the table with its columns
    as they were and with exactly the rows that are missing in none of [pre];
    one line has been printed for each column of [pre] and none for [c] or
    the columns after it. *)
Theorem drop_cols_failure_keeps_partial_work w pre c post len_df :
  wf_frame (frame w) = true ->
  incl pre (columns (frame w)) ->
  ~ In c (columns (frame w)) ->
  pre = [] \/ int64_range len_df = true ->
  exists w',
    drop_cols (pre ++ c :: post) len_df w = (Raise (KeyError c), w')
    /\ columns (frame w') = columns (frame w)
    /\ (forall r, In r (rows (frame w'))
                  <-> In r (rows (frame w))
                      /\ forall x, In x pre -> isna_at (columns (frame w)) r x = false)
    /\ List.length (stdout w') = (List.length (stdout w) + List.length pre)%nat.
Proof.
  intros _ Hpre Hc Hr. eexists.
  split; [apply (drop_cols_raises w pre c post len_df Hpre Hc Hr)|].
  simpl. split; [reflexivity|]. split.
  - intros r. apply (keep_complete_rows_In (frame w) pre r).
  - rewrite length_app, dropped_lines_length. reflexivity.
Qed.

Lemma drop_cols_failure_keeps_partial_work_witness :
  wf_frame overlapping = true
  /\ int64_range 10 = true
  /\ exists w',
       drop_cols [ "a"; "zz"; "b" ] 10 (fresh overlapping) = (Raise (KeyError "zz"), w')
       /\ List.length (stdout w') = 1%nat.
Proof.
  split; [reflexivity|]. split; [reflexivity|].
  destruct (drop_cols_failure_keeps_partial_work (fresh overlapping) [ "a" ] "zz" [ "b" ] 10
              eq_refl) as (w' & Hrun & _ & _ & Hlen).
  - intros c [<-|[]]. left. reflexivity.
  - intros [H|[H|[]]]; discriminate.
  - right. reflexivity.
  - exists w'. split; [exact Hrun | exact Hlen].
Defined.



(* ================================================================== *)
(** * Thresholds and row counts at the edge *)
(* ================================================================== *)

Lemma SFcompare_refl x : x <> S754_nan -> SFcompare x x = Some Eq.
Proof.
  destruct x as [s|s| |s m e]; simpl; intros H; try reflexivity.
  - destruct s; reflexivity.
  - congruence.
  - destruct s; rewrite Z.compare_refl, Pos.compare_cont_refl; reflexivity.
Qed.

Lemma is_nan_Prim2SF f : is_nan f = true -> Prim2SF f = S754_nan.
Proof.
  unfold is_nan. rewrite FloatAxioms.eqb_spec. unfold SFeqb.
  generalize (Prim2SF f). intros x H.
  destruct x as [s|s| |s m e]; try reflexivity; exfalso.
  all: rewrite SFcompare_refl in H by discriminate; discriminate.
Qed.

(** A comparison with the product of anything and a NaN is false. *)
Lemma gt_nan_bound count f x :
  is_nan x = true -> int64_gt_float count (PrimFloat.mul f x) = false.
Proof.
  intros Hnan. unfold int64_gt_float.
  rewrite ltb_spec, mul_spec, (is_nan_Prim2SF x Hnan).
  unfold SF64mul, SFltb.
  destruct (Prim2SF f); reflexivity.
Qed.

(** X11: the loop of [id_nan_columns] accepts a threshold that is NaN: with
    such a threshold, items that are all columns of the table and a row count
    that converts to a float, every item lands in the second list (the drop
    candidates) and none in the first, whatever the table holds. *)
Theorem classifier_loop_nan_threshold w items len_df max_nans bound :
  wf_frame (frame w) = true ->
  incl items (columns (frame w)) ->
  is_nan max_nans = true ->
  int_mul_float len_df max_nans = Ok bound ->
  classify_for items len_df max_nans ([], []) w = (Ok ([], items), w).
Proof.
  intros _ Hincl Hnan Hb.
  rewrite (classify_for_present items len_df max_nans bound [] [] w Hincl Hb).
  assert (forall c, exceeds (frame w) bound c = false) as Hnever.
  { intros c. unfold exceeds. unfold int_mul_float in Hb.
    destruct (is_infinity (float_of_int len_df)); [discriminate|].
    injection Hb as <-. apply gt_nan_bound. assumption. }
  rewrite filter_none by (intros; apply Hnever).
  rewrite filter_all by (intros; rewrite Hnever; reflexivity).
  reflexivity.
Qed.

Lemma classifier_loop_nan_threshold_witness :
  wf_frame hundred = true
  /\ classify_for [ "cabin"; "age" ] 100 nan ([], []) (fresh hundred)
     = (Ok ([], [ "cabin"; "age" ]), fresh hundred).
Proof.
  split; [reflexivity|].
  apply (classifier_loop_nan_threshold (fresh hundred) [ "cabin"; "age" ] 100 nan
           (PrimFloat.mul (float_of_int 100) nan) eq_refl).
  - intros c Hc. simpl in *. tauto.
  - reflexivity.
  - reflexivity.
Defined.

Lemma dropped_lines_In df cols : forall done len_df line,
  In line (dropped_lines df done cols len_df) ->
  exists n c, In c cols /\ line = dropped_line n c len_df.
Proof.
  induction cols as [|c cs IH]; intros done len_df line Hin; simpl in Hin.
  - contradiction.
  - destruct Hin as [<-|Hin].
    + exists (live_missing df done c), c. split; [left|]; reflexivity.
    + destruct (IH _ _ _ Hin) as (n & x & Hx & ->).
      exists n, x. split; [right; assumption | reflexivity].
Qed.

(** X12: [drop_cols] with a row count of 0 does not fail on the division
    [num_nan/len_df]: on present columns it returns and prints its line per
    column, and every line that reports 0 rows carries the percentage
    [round(nan, 3)], which is NaN, the quotient 0/0 being NaN. *)
Theorem drop_cols_zero_row_count w cols :
  wf_frame (frame w) = true ->
  incl cols (columns (frame w)) ->
  exists df' out,
    drop_cols cols 0 w = (Ok df', mkWorld df' (stdout w ++ out))
    /\ List.length out = List.length cols
    /\ forall line, In line out -> reported line = 0 -> percentage line = Some nan.
Proof.
  intros _ Hincl.
  exists (keep_complete (frame w) cols), (dropped_lines (frame w) [] cols 0).
  split; [apply (drop_cols_present w cols 0 Hincl eq_refl)|].
  split; [apply dropped_lines_length|].
  intros line Hin Hzero.
  destruct (dropped_lines_In (frame w) cols [] 0 line Hin) as (n & c & _ & ->).
  rewrite reported_dropped_line in Hzero. subst n. reflexivity.
Qed.

Lemma drop_cols_zero_row_count_witness :
  wf_frame (mkFrame [ "a"; "b" ] []) = true
  /\ incl [ "b" ] [ "a"; "b" ]
  /\ exists df' out,
       drop_cols [ "b" ] 0 (fresh (mkFrame [ "a"; "b" ] []))
       = (Ok df', mkWorld df' ([] ++ out))
       /\ List.length out = 1%nat.
Proof.
  split; [reflexivity|].
  assert (incl [ "b" ] [ "a"; "b" ]) as Hincl by (intros c [<-|[]]; simpl; tauto).
  split; [exact Hincl|].
  destruct (drop_cols_zero_row_count (fresh (mkFrame [ "a"; "b" ] [])) [ "b" ]
              eq_refl Hincl) as (df' & out & Hrun & Hlen & _).
  exists df', out. split; [exact Hrun | exact Hlen].
Defined.

(** X13: [drop_cols] never raises the count of missing values of any column,
    listed or not: in the returned table each column has at most as many
    missing values as it had before the call. *)
Theorem drop_cols_missing_counts_decrease w cols len_df df' w' :
  wf_frame (frame w) = true ->
  drop_cols cols len_df w = (Ok df', w') ->
  forall c col, getitem (frame w) c = Ok col ->
    exists col', getitem df' c = Ok col' /\ 0 <= isna_sum col' <= isna_sum col.
Proof.
  intros _ Hrun c col Hcol.
  destruct (drop_cols_ok_inv w cols len_df df' w' Hrun) as (Hincl & -> & ->).
  pose proof (getitem_ok_In (frame w) c col Hcol) as Hin.
  destruct (getitem_keep_complete (frame w) cols c Hin) as (col' & Hcol' & Hsum').
  destruct (getitem_isna_sum (frame w) c Hin) as (col0 & Hcol0 & Hsum).
  rewrite Hcol in Hcol0. injection Hcol0 as <-.
  exists col'. split; [assumption|]. rewrite Hsum', Hsum.
  split; [apply live_missing_nonneg | apply live_missing_le].
Qed.

Lemma drop_cols_missing_counts_decrease_witness :
  wf_frame relapse = true
  /\ exists col', getitem (frame relapse_once) "r" = Ok col'
                  /\ 0 <= isna_sum col' <= 2.
Proof.
  split; [reflexivity|].
  apply (drop_cols_missing_counts_decrease (fresh relapse) [ "d" ] 22
           (frame relapse_once) relapse_once eq_refl eq_refl "r"
           (map (fun r => value_at r 1) (rows relapse)) eq_refl).
Defined.
